(** * K21elec: vote-tally extraction pipeline (src/App.tsx)

    A shallow embedding of the page classifier, the result accumulator
    ([processFile], [startExtraction]), the district aggregator
    ([districtSummary]), the CSV exporter ([downloadCSV]) and the candidate
    selection ([toggleCandidate], [selectAllCandidates],
    [clearAllCandidates]) of [src/App.tsx], and of the image payload of
    [extractDataFromImage] ([src/services/geminiService.ts]), over the data
    model of [types.ts].

    Conventions.
    - A JavaScript string is its UTF-8 byte sequence ([string]).
    - Vote counts are whole numbers ([Z]); JavaScript adds whole numbers
      exactly below 2^53, and the model adds them in [Z].
    - The numbers of the progress computation involve a division and are kept
      behind the interface [JSNumber], with an exact and a binary64 instance.
    - A plain object used as a dictionary is the list of its own properties
      in creation order ([Dict]); names inherited from [Object.prototype] are
      not part of the model.
    - The component state is passed explicitly ([AppState]); what the PDF
      library and the extraction service answer for each page is an input
      ([FileInput], [PageOutcome]); calls, log lines and progress updates are
      recorded in the order they happen ([trace]). *)

From Stdlib Require Import ZArith List Bool Lia Arith PeanoNat.
From Stdlib Require Import Strings.String Strings.Ascii Numbers.DecimalString.
From Stdlib Require Import Sorting.Permutation Sorting.Sorted.
From Stdlib Require Numbers.DecimalZ QArith.QArith QArith.Qcanon QArith.Qround.
From Stdlib Require Floats.PrimFloat Floats.FloatOps Floats.SpecFloat.
Import ListNotations.

Open Scope string_scope.
Open Scope Z_scope.

(** ** Data model (types.ts) *)

Record CandidateVote := mkCandidateVote {
  candidateName   : string;
  classifiedVotes : Z;
  reconfirmVotes  : Z;
  cv_totalVotes   : Z          (* CandidateVote.totalVotes *)
}.

Record ElectionPageData := mkElectionPageData {
  pageNumber     : option nat;
  district       : string;
  votingType     : string;
  candidateVotes : list CandidateVote;
  validVotes     : Z;
  invalidVotes   : Z;
  totalVotes     : Z
}.

(** ** Page classifier (processFile, the [mappedType] chain) *)

Definition mappedType (i : nat) (dataVotingType : string) : string :=
  if ((1 <=? i) && (i <=? 26))%nat then "관내사전 (Early In)"
  else if ((27 <=? i) && (i <=? 168))%nat then "선거일 (Election Day)"
  else if (i =? 169)%nat then "관외사전 (Early Out)"
  else if (i =? 170)%nat then "재외투표 (Overseas)"
  else if (i =? 171)%nat then "거소/선상 (Absentee)"
  else dataVotingType.

(** ** Plain objects used as dictionaries

    [Dict V] lists the own properties of an object in creation order.
    [get] is the property read [map[key]] ([None] for [undefined]);
    [set] is the assignment [map[key] = v], which keeps the position of an
    existing property and appends a new one; [modify] is a mutation of the
    object stored under [key], reached through an alias
    ([const entry = map[key]; entry.f += x]). *)

Definition Dict (V : Type) := list (string * V).

Section DictOps.
Context {V : Type}.

Fixpoint get (k : string) (m : Dict V) : option V :=
  match m with
  | [] => None
  | (k', v) :: m' => if (k' =? k)%string then Some v else get k m'
  end.

Fixpoint set (k : string) (v : V) (m : Dict V) : Dict V :=
  match m with
  | [] => [(k, v)]
  | (k', v') :: m' =>
      if (k' =? k)%string then (k', v) :: m' else (k', v') :: set k v m'
  end.

Definition modify (k : string) (f : V -> V) (m : Dict V) : Dict V :=
  map (fun kv => if (fst kv =? k)%string then (fst kv, f (snd kv)) else kv) m.

(** [!map[key]] for a dictionary whose values are objects. *)
Definition missing (k : string) (m : Dict V) : bool :=
  match get k m with Some _ => false | None => true end.

End DictOps.

(** *** Own-property order

    [Object.values] walks the own keys in the order of
    OrdinaryOwnPropertyKeys: the keys that are array indices (canonical
    decimal numerals of 0 .. 2^32-2) in ascending numeric order, then every
    other string key in creation order. *)

Definition array_index (k : string) : option N :=
  match NilZero.uint_of_string k with
  | Some u =>
      let n := N.of_uint u in
      if ((NilZero.string_of_uint (N.to_uint n) =? k)%string
          && (n <? 4294967295)%N)%bool
      then Some n else None
  | None => None
  end.

Definition is_index (k : string) : bool :=
  match array_index k with Some _ => true | None => false end.

Definition index_of (k : string) : N :=
  match array_index k with Some n => n | None => 0%N end.

Fixpoint insert_key (k : string) (l : list string) : list string :=
  match l with
  | [] => [k]
  | k' :: l' =>
      if (index_of k <=? index_of k')%N then k :: l else k' :: insert_key k l'
  end.

Definition sort_keys (ks : list string) : list string :=
  fold_right insert_key [] ks.

Definition own_keys_order (ks : list string) : list string :=
  sort_keys (filter is_index ks) ++ filter (fun k => negb (is_index k)) ks.

Definition Object_keys {V} (m : Dict V) : list string :=
  own_keys_order (map fst m).

Definition Object_values {V} (m : Dict V) : list V :=
  flat_map (fun k => match get k m with Some v => [v] | None => [] end)
           (Object_keys m).

(** ** District aggregator (districtSummary) *)

Record CandidateTotals := mkCandidateTotals {
  classified : Z;
  reconfirm  : Z;
  total      : Z
}.

Record AggregatedData := mkAggregatedData {
  agg_district     : string;                 (* AggregatedData.district *)
  votesByCandidate : Dict CandidateTotals;
  validTotal       : Z;
  invalidTotal     : Z;
  grandTotal       : Z
}.

(** [page.district || "Unknown"] *)
Definition district_key (page : ElectionPageData) : string :=
  if (district page =? EmptyString)%string then "Unknown" else district page.

(** The body of [page.candidateVotes.forEach(cv => ...)] on
    [entry.votesByCandidate]. *)
Definition add_candidate (byCand : Dict CandidateTotals) (cv : CandidateVote)
  : Dict CandidateTotals :=
  let byCand :=
    if missing (candidateName cv) byCand
    then set (candidateName cv) (mkCandidateTotals 0 0 0) byCand
    else byCand in
  modify (candidateName cv)
         (fun cEntry =>
            mkCandidateTotals (classified cEntry + classifiedVotes cv)
                              (reconfirm cEntry + reconfirmVotes cv)
                              (total cEntry + cv_totalVotes cv))
         byCand.

(** The updates of one page on its [entry]. *)
Definition add_page (page : ElectionPageData) (entry : AggregatedData)
  : AggregatedData :=
  mkAggregatedData
    (agg_district entry)
    (fold_left add_candidate (candidateVotes page) (votesByCandidate entry))
    (validTotal entry + validVotes page)
    (invalidTotal entry + invalidVotes page)
    (grandTotal entry + totalVotes page).

(** The body of [results.forEach(page => ...)] on [map]. *)
Definition summary_step (map : Dict AggregatedData) (page : ElectionPageData)
  : Dict AggregatedData :=
  let key := district_key page in
  let map :=
    if missing key map
    then set key (mkAggregatedData key [] 0 0 0) map
    else map in
  modify key (add_page page) map.

Definition summary_map (results : list ElectionPageData) : Dict AggregatedData :=
  fold_left summary_step results [].

Definition districtSummary (results : list ElectionPageData)
  : list AggregatedData :=
  Object_values (summary_map results).

(** ** CSV exporter (downloadCSV) *)

(** The text of a whole number inside a template literal. *)
Definition show (n : Z) : string := NilEmpty.string_of_int (Z.to_int n).

Definition dquote : string := String (ascii_of_nat 34) EmptyString.
Definition newline : string := String (ascii_of_nat 10) EmptyString.
(** U+FEFF in UTF-8. *)
Definition BOM : string :=
  String (ascii_of_nat 239)
    (String (ascii_of_nat 187) (String (ascii_of_nat 191) EmptyString)).

(** [r.candidateVotes.find(v => v.candidateName === c)] *)
Definition find_vote (c : string) (r : ElectionPageData)
  : option CandidateVote :=
  find (fun v => (candidateName v =? c)%string) (candidateVotes r).

(** [cv?.field || 0] *)
Definition or_zero (field : CandidateVote -> Z) (cv : option CandidateVote)
  : Z :=
  match cv with
  | Some v => if field v =? 0 then 0 else field v
  | None => 0
  end.

Definition headers (selectedCandidates : list string) : string :=
  fold_left
    (fun headers c =>
       headers ++ "," ++ c ++ "_분류," ++ c ++ "_재확인," ++ c ++ "_계")
    selectedCandidates
    "투표구,유형,유효투표,무효투표,총계".

Definition row (selectedCandidates : list string) (r : ElectionPageData)
  : string :=
  fold_left
    (fun row c =>
       let cv := find_vote c r in
       row ++ "," ++ show (or_zero classifiedVotes cv)
           ++ "," ++ show (or_zero reconfirmVotes cv)
           ++ "," ++ show (or_zero cv_totalVotes cv))
    selectedCandidates
    (dquote ++ district r ++ dquote ++ "," ++ dquote ++ votingType r ++ dquote
       ++ "," ++ show (validVotes r)
       ++ "," ++ show (invalidVotes r)
       ++ "," ++ show (totalVotes r)).

(** [results.reduce((acc, r) => acc + f(r), 0)] *)
Definition reduce_sum (f : ElectionPageData -> Z)
  (results : list ElectionPageData) : Z :=
  fold_left (fun acc r => acc + f r) results 0.

Definition totalRow (selectedCandidates : list string)
  (results : list ElectionPageData) : string :=
  fold_left
    (fun totalRow c =>
       let s  := reduce_sum (fun r => or_zero classifiedVotes (find_vote c r))
                            results in
       let rc := reduce_sum (fun r => or_zero reconfirmVotes (find_vote c r))
                            results in
       let t  := reduce_sum (fun r => or_zero cv_totalVotes (find_vote c r))
                            results in
       totalRow ++ "," ++ show s ++ "," ++ show rc ++ "," ++ show t)
    selectedCandidates
    (dquote ++ "전체 합계" ++ dquote ++ "," ++ dquote ++ dquote
       ++ "," ++ show (reduce_sum validVotes results)
       ++ "," ++ show (reduce_sum invalidVotes results)
       ++ "," ++ show (reduce_sum totalVotes results)).

Definition csv (selectedCandidates : list string)
  (results : list ElectionPageData) : string :=
  let csv := headers selectedCandidates ++ newline in
  let csv :=
    fold_left (fun csv r => csv ++ row selectedCandidates r ++ newline)
              results csv in
  csv ++ totalRow selectedCandidates results ++ newline.

(** The downloaded artifact: file name and blob text; [None] when the
    function returns without producing one. *)
Definition downloadCSV (results : list ElectionPageData)
  (selectedCandidates : list string) : option (string * string) :=
  if ((List.length results =? 0)%nat
      || (List.length selectedCandidates =? 0)%nat)%bool
  then None
  else Some ("21대대선_심사집계부_"
               ++ show (Z.of_nat (List.length selectedCandidates)) ++ "명.csv",
             BOM ++ csv selectedCandidates results).

(** ** Numbers of the progress computation

    [i / pagesCount] is a division of JavaScript numbers, so the progress
    expression is written against an interface: whole numbers ([of_nat]: loop
    counters, lengths, the literals 0 and 100), [+], [/], [*], [Math.round]
    and [<=]. *)

Class JSNumber (num : Type) := {
  of_nat     : nat -> num;
  add        : num -> num -> num;
  div        : num -> num -> num;
  mul        : num -> num -> num;
  Math_round : num -> num;
  le         : num -> num -> Prop
}.

(** What the monotonicity argument uses of the arithmetic. [safe n] marks
    the whole numbers on which the arithmetic is exact. The order is
    transitive; [of_nat], the addition to a safe whole number, the division
    and the multiplication by a positive safe whole number, and [Math.round]
    are monotone; operations on whole numbers with a safe whole result are
    exact. Correctly rounded binary64 arithmetic, with its NaN and
    infinities, has these properties for [safe n := n <= 2^53]; exact
    arithmetic has them for every [n]. *)
Class JSNumberLaws (num : Type) `{JSNumber num} (safe : nat -> Prop) := {
  safe_le      : forall m n, (m <= n)%nat -> safe n -> safe m;
  safe_100     : safe 100%nat;
  le_trans     : forall a b c, le a b -> le b c -> le a c;
  of_nat_le    : forall m n, (m <= n)%nat -> le (of_nat m) (of_nat n);
  add_le_r     : forall s b c, safe s -> le b c ->
                   le (add (of_nat s) b) (add (of_nat s) c);
  div_le_l     : forall a b n, (0 < n)%nat -> safe n -> le a b ->
                   le (div a (of_nat n)) (div b (of_nat n));
  mul_le_l     : forall a b n, (0 < n)%nat -> safe n -> le a b ->
                   le (mul a (of_nat n)) (mul b (of_nat n));
  round_le     : forall a b, le a b -> le (Math_round a) (Math_round b);
  add_of_nat   : forall m n, safe (m + n)%nat ->
                   add (of_nat m) (of_nat n) = of_nat (m + n);
  mul_of_nat   : forall m n, safe (m * n)%nat ->
                   mul (of_nat m) (of_nat n) = of_nat (m * n);
  div_same     : forall n, (0 < n)%nat -> safe n ->
                   div (of_nat n) (of_nat n) = of_nat 1;
  div_zero     : forall n, (0 < n)%nat -> safe n ->
                   div (of_nat 0) (of_nat n) = of_nat 0;
  round_of_nat : forall n, safe n -> Math_round (of_nat n) = of_nat n
}.

(** ** Result accumulator (processFile, startExtraction) *)

(** A thrown value: an [Error] with its message, or anything else. *)
Inductive Thrown :=
| ErrorObject (message : string)
| OtherValue.

(** What the collaborators answer for one page: [pdf.getPage] or
    [renderPageToDataUrl] rejects, [extractDataFromImage] rejects, or the
    extraction returns a record. *)
Inductive PageOutcome :=
| RenderThrows (err : Thrown)
| ExtractThrows (err : Thrown)
| Extracted (data : ElectionPageData).

(** A selected file: of another MIME type, a PDF that cannot be read
    ([arrayBuffer] or [getDocument] rejects), or a PDF with its pages
    ([numPages] is their number). *)
Inductive FileInput :=
| OtherType
| OpenThrows (err : Thrown)
| PdfPages (pages : list PageOutcome).

Inductive Completion :=
| Normal
| Throw (err : Thrown).

Section Accumulator.
Context {num : Type} `{JSNumber num}.

(** Observable effects, in order of occurrence. *)
Inductive Event :=
| ExtractCall (startIndex page : nat)
| ConsoleError (page : nat) (err : Thrown)
| SetProgress (value : num).

Record AppState := mkAppState {
  results      : list ElectionPageData;
  isProcessing : bool;
  progress     : num;
  error        : option string;
  trace        : list Event
}.

Definition emit (e : Event) (st : AppState) : AppState :=
  mkAppState (results st) (isProcessing st) (progress st) (error st)
             (trace st ++ [e])%list.

Definition setResults (f : list ElectionPageData -> list ElectionPageData)
  (st : AppState) : AppState :=
  mkAppState (f (results st)) (isProcessing st) (progress st) (error st)
             (trace st).

Definition setIsProcessing (b : bool) (st : AppState) : AppState :=
  mkAppState (results st) b (progress st) (error st) (trace st).

Definition setProgress (v : num) (st : AppState) : AppState :=
  emit (SetProgress v)
       (mkAppState (results st) (isProcessing st) v (error st) (trace st)).

Definition setError (e : option string) (st : AppState) : AppState :=
  mkAppState (results st) (isProcessing st) (progress st) e (trace st).

(** [Math.round(((startIndex + (i / pagesCount)) / totalFiles) * 100)] *)
Definition progress_value (startIndex i pagesCount totalFiles : nat) : num :=
  Math_round
    (mul (div (add (of_nat startIndex) (div (of_nat i) (of_nat pagesCount)))
              (of_nat totalFiles))
         (of_nat 100)).

(** [{ ...data, votingType: mappedType, pageNumber: i }] *)
Definition page_record (i : nat) (data : ElectionPageData) : ElectionPageData :=
  mkElectionPageData (Some i) (district data) (mappedType i (votingType data))
                     (candidateVotes data) (validVotes data)
                     (invalidVotes data) (totalVotes data).

(** One iteration of the page loop of [processFile]. *)
Definition page_step (startIndex totalFiles pagesCount i : nat)
  (p : PageOutcome) (st : AppState) : Completion * AppState :=
  match p with
  | RenderThrows err => (Throw err, st)
  | ExtractThrows err =>
      let st := emit (ExtractCall startIndex i) st in
      let st := emit (ConsoleError i err) st in
      (Normal, setProgress (progress_value startIndex i pagesCount totalFiles) st)
  | Extracted data =>
      let st := emit (ExtractCall startIndex i) st in
      let st := setResults (fun prev => (prev ++ [page_record i data])%list) st in
      (Normal, setProgress (progress_value startIndex i pagesCount totalFiles) st)
  end.

(** [for (let i = ...; i <= pagesCount; i++)] over the remaining pages. *)
Fixpoint page_loop (startIndex totalFiles pagesCount i : nat)
  (pages : list PageOutcome) (st : AppState) : Completion * AppState :=
  match pages with
  | [] => (Normal, st)
  | p :: rest =>
      match page_step startIndex totalFiles pagesCount i p st with
      | (Normal, st') => page_loop startIndex totalFiles pagesCount (S i) rest st'
      | (Throw err, st') => (Throw err, st')
      end
  end.

Definition processFile (file : FileInput) (startIndex totalFiles : nat)
  (st : AppState) : Completion * AppState :=
  match file with
  | OtherType => (Normal, st)
  | OpenThrows err => (Throw err, st)
  | PdfPages pages =>
      page_loop startIndex totalFiles (List.length pages) 1 pages st
  end.

(** [for (let i = ...; i < files.length; i++) await processFile(files[i], i,
    files.length)] over the remaining files. *)
Fixpoint file_loop (i totalFiles : nat) (files : list FileInput)
  (st : AppState) : Completion * AppState :=
  match files with
  | [] => (Normal, st)
  | file :: rest =>
      match processFile file i totalFiles st with
      | (Normal, st') => file_loop (S i) totalFiles rest st'
      | (Throw err, st') => (Throw err, st')
      end
  end.

(** [err instanceof Error ? err.message : 'Unknown error'] *)
Definition error_text (err : Thrown) : string :=
  "Extraction failed: "
    ++ match err with ErrorObject message => message | OtherValue => "Unknown error" end.

Definition startExtraction (files : list FileInput) (st : AppState) : AppState :=
  if (List.length files =? 0)%nat then st
  else
    let st := setIsProcessing true st in
    let st := setResults (fun _ => []) st in
    let st := setProgress (of_nat 0) st in
    let st := setError None st in
    let '(completion, st) := file_loop 0 (List.length files) files st in
    let st :=
      match completion with
      | Normal => st
      | Throw err => setError (Some (error_text err)) st
      end in
    let st := setIsProcessing false st in
    setProgress (of_nat 100) st.

End Accumulator.

Arguments Event num : clear implicits.
Arguments AppState num : clear implicits.

(** ** Vocabulary of the statements *)


Definition sumZ {A : Type} (f : A -> Z) (l : list A) : Z :=
  fold_right (fun a s => f a + s) 0 l.








(** The two loops of the aggregator have one shape: create the entry of a
    key when it is missing, then update it through the alias. *)
Section KeyedDefs.
Context {A V : Type}.
Variable keyof : A -> string.
Variable init : string -> V.
Variable upd : A -> V -> V.



End KeyedDefs.





(** Sample pages for the instances below. *)
Definition sample_page (d : string) (cvs : list CandidateVote)
  (valid invalid all : Z) : ElectionPageData :=
  mkElectionPageData None d "선거일" cvs valid invalid all.

Definition hallim : ElectionPageData :=
  sample_page "한림읍" [mkCandidateVote "이재명" 100 5 105] 105 2 107.

Definition aewol_1 : ElectionPageData :=
  sample_page "애월읍" [mkCandidateVote "이재명" 40 1 41;
                        mkCandidateVote "김문수" 30 2 32] 73 1 74.

Definition aewol_2 : ElectionPageData :=
  sample_page "애월읍" [mkCandidateVote "김문수" 7 0 7] 7 3 10.


(** *** Cells of the CSV table *)

(** A line is its cells separated by commas; the text of a table is its
    lines, each ended by a newline. *)
Definition join_cells (cells : list string) : string :=
  String.concat "," cells.

Definition concat_all (l : list string) : string :=
  fold_right String.append EmptyString l.

Definition lines_text (lines : list string) : string :=
  concat_all (map (fun l => l ++ newline) lines).

Definition quoted (s : string) : string := dquote ++ s ++ dquote.

Definition header_cells (selectedCandidates : list string) : list string :=
  List.app
    ["투표구"; "유형"; "유효투표"; "무효투표"; "총계"]
    (flat_map (fun c => [c ++ "_분류"; c ++ "_재확인"; c ++ "_계"])
              selectedCandidates).

(** The numeric columns of the row of a page: the three page counts, then
    three columns per selected candidate. *)
Definition row_numbers (selectedCandidates : list string)
  (r : ElectionPageData) : list Z :=
  ([validVotes r; invalidVotes r; totalVotes r]
     ++ flat_map (fun c => [or_zero classifiedVotes (find_vote c r);
                            or_zero reconfirmVotes (find_vote c r);
                            or_zero cv_totalVotes (find_vote c r)])
                 selectedCandidates)%list.

Definition row_cells (selectedCandidates : list string)
  (r : ElectionPageData) : list string :=
  quoted (district r) :: quoted (votingType r)
    :: map show (row_numbers selectedCandidates r).

(** The numeric columns of the totals row. *)
Definition total_numbers (selectedCandidates : list string)
  (results : list ElectionPageData) : list Z :=
  ([reduce_sum validVotes results; reduce_sum invalidVotes results;
    reduce_sum totalVotes results]
     ++ flat_map
          (fun c =>
             [reduce_sum (fun r => or_zero classifiedVotes (find_vote c r)) results;
              reduce_sum (fun r => or_zero reconfirmVotes (find_vote c r)) results;
              reduce_sum (fun r => or_zero cv_totalVotes (find_vote c r)) results])
          selectedCandidates)%list.

Definition totalRow_cells (selectedCandidates : list string)
  (results : list ElectionPageData) : list string :=
  quoted "전체 합계" :: quoted EmptyString
    :: map show (total_numbers selectedCandidates results).

Definition csv_lines (selectedCandidates : list string)
  (results : list ElectionPageData) : list string :=
  (headers selectedCandidates :: map (row selectedCandidates) results
     ++ [totalRow selectedCandidates results])%list.

(** Column of the classified, reconfirm and total cell of the [k]-th
    selected candidate (counting the five leading columns). *)
Definition classified_column (k : nat) : nat := 5 + 3 * k.
Definition reconfirm_column (k : nat) : nat := 5 + 3 * k + 1.
Definition total_column (k : nat) : nat := 5 + 3 * k + 2.


(** A page whose stored candidate totals are not classified + reconfirm. *)
Definition inconsistent_page : ElectionPageData :=
  sample_page "한림읍" [mkCandidateVote "김문수" 3 4 99;
                        mkCandidateVote "이재명" 100 5 999] 105 2 107.


(** *** Vocabulary of the accumulator statements *)

Definition renders (p : PageOutcome) : bool :=
  match p with RenderThrows _ => false | _ => true end.

(** The records of the pages that were extracted, [i] being the number of
    the first page of the list. *)
Fixpoint page_records (i : nat) (pages : list PageOutcome)
  : list ElectionPageData :=
  match pages with
  | [] => []
  | Extracted data :: rest => page_record i data :: page_records (S i) rest
  | _ :: rest => page_records (S i) rest
  end.

(** The pages whose extraction failed, with the value thrown. *)
Fixpoint failed_pages (i : nat) (pages : list PageOutcome)
  : list (nat * Thrown) :=
  match pages with
  | [] => []
  | ExtractThrows err :: rest => (i, err) :: failed_pages (S i) rest
  | _ :: rest => failed_pages (S i) rest
  end.

(** The records appended up to the first failure that leaves the page loop,
    and that failure. *)
Fixpoint collect_pages (i : nat) (pages : list PageOutcome)
  : list ElectionPageData * option Thrown :=
  match pages with
  | [] => ([], None)
  | RenderThrows err :: _ => ([], Some err)
  | ExtractThrows _ :: rest => collect_pages (S i) rest
  | Extracted data :: rest =>
      let '(rs, failure) := collect_pages (S i) rest in
      (page_record i data :: rs, failure)
  end.

Fixpoint collect_files (files : list FileInput)
  : list ElectionPageData * option Thrown :=
  match files with
  | [] => ([], None)
  | OtherType :: rest => collect_files rest
  | OpenThrows err :: _ => ([], Some err)
  | PdfPages pages :: rest =>
      match collect_pages 1 pages with
      | (rs, Some err) => (rs, Some err)
      | (rs, None) =>
          let '(rs', failure) := collect_files rest in
          ((rs ++ rs')%list, failure)
      end
  end.

Definition completion_of (failure : option Thrown) : Completion :=
  match failure with
  | None => Normal
  | Some err => Throw err
  end.

(** A file that raises no run-level failure. *)
Definition file_renders (file : FileInput) : bool :=
  match file with
  | OtherType => true
  | OpenThrows _ => false
  | PdfPages pages => forallb renders pages
  end.

Definition file_records (file : FileInput) : list ElectionPageData :=
  match file with
  | PdfPages pages => page_records 1 pages
  | _ => []
  end.

(** The extraction calls a file at position [startIndex] is due: one per
    page, in page order. *)
Definition file_calls (startIndex : nat) (file : FileInput)
  : list (nat * nat) :=
  match file with
  | PdfPages pages => map (pair startIndex) (seq 1 (List.length pages))
  | _ => []
  end.

Fixpoint run_calls (i : nat) (files : list FileInput) : list (nat * nat) :=
  match files with
  | [] => []
  | file :: rest => (file_calls i file ++ run_calls (S i) rest)%list
  end.

Section TraceViews.
Context {num : Type}.

Definition extract_calls (evs : list (Event num)) : list (nat * nat) :=
  flat_map (fun e => match e with ExtractCall s i => [(s, i)] | _ => [] end) evs.

Definition console_errors (evs : list (Event num)) : list (nat * Thrown) :=
  flat_map (fun e => match e with ConsoleError i err => [(i, err)] | _ => [] end)
           evs.

Definition progress_values (evs : list (Event num)) : list num :=
  flat_map (fun e => match e with SetProgress v => [v] | _ => [] end) evs.

End TraceViews.

(** The events of the page loop, of a file and of the file loop, up to the
    first failure that leaves the loop. *)
Section RunEvents.
Context {num : Type} `{JSNumber num}.

Fixpoint page_events (s t n i : nat) (pages : list PageOutcome)
  : list (Event num) :=
  match pages with
  | [] => []
  | RenderThrows _ :: _ => []
  | ExtractThrows err :: rest =>
      ExtractCall s i :: ConsoleError i err
        :: SetProgress (progress_value s i n t) :: page_events s t n (S i) rest
  | Extracted _ :: rest =>
      ExtractCall s i
        :: SetProgress (progress_value s i n t) :: page_events s t n (S i) rest
  end.

Definition file_events (s t : nat) (file : FileInput) : list (Event num) :=
  match file with
  | PdfPages pages => page_events s t (List.length pages) 1 pages
  | _ => []
  end.

Fixpoint run_events (i t : nat) (files : list FileInput) : list (Event num) :=
  match files with
  | [] => []
  | file :: rest =>
      (file_events i t file
         ++ match snd (collect_files [file]) with
            | None => run_events (S i) t rest
            | Some _ => []
            end)%list
  end.

(** The state [startExtraction] hands to the file loop. *)
Definition run_start (st : AppState num) : AppState num :=
  setError None
    (setProgress (of_nat 0) (setResults (fun _ => []) (setIsProcessing true st))).

End RunEvents.

(** The page count of a file is a safe whole number. *)
Definition safe_file (safe : nat -> Prop) (file : FileInput) : Prop :=
  match file with
  | PdfPages pages => safe (List.length pages)
  | _ => True
  end.

(** A list of numbers in non-decreasing order, all between two bounds. *)
Definition sorted_between {num : Type} `{JSNumber num} (lo hi : num)
  (vs : list num) : Prop :=
  StronglySorted le vs /\ Forall (fun v => le lo v /\ le v hi) vs.

(** The percentage of a position [x] among [t] files:
    [Math.round((x / t) * 100)]. *)
Definition percent {num : Type} `{JSNumber num} (t : nat) (x : num) : num :=
  Math_round (mul (div x (of_nat t)) (of_nat 100)).

(** ** Exact arithmetic

    The rationals with [Math.round x = floor (x + 1/2)]: the arithmetic the
    progress expression denotes when no operation rounds. *)
Module ExactNumber.

Definition whole (n : nat) : Qcanon.Qc :=
  Qcanon.Q2Qc (QArith_base.inject_Z (Z.of_nat n)).

Definition round_half_up (x : Qcanon.Qc) : Qcanon.Qc :=
  Qcanon.Q2Qc
    (QArith_base.inject_Z
       (Qround.Qfloor (QArith_base.Qplus (Qcanon.this x)
                                         (QArith_base.Qmake 1 2)))).

#[global] Instance exact : JSNumber Qcanon.Qc :=
  Build_JSNumber Qcanon.Qc whole Qcanon.Qcplus Qcanon.Qcdiv Qcanon.Qcmult
                 round_half_up Qcanon.Qcle.

End ExactNumber.

(** ** Binary64 arithmetic

    The numbers JavaScript computes with: IEEE 754 binary64, every operation
    correctly rounded, [Math.round x] the integer nearest to [x] with ties
    towards +infinity (and the sign of [x] on a zero result). *)
Module Binary64.

Definition of_Z (z : Z) : PrimFloat.float :=
  FloatOps.SF2Prim
    (SpecFloat.binary_normalize FloatOps.prec FloatOps.emax z 0 false).

Definition round_half_up (x : PrimFloat.float) : PrimFloat.float :=
  match FloatOps.Prim2SF x with
  | SpecFloat.S754_finite sign m e =>
      if 0 <=? e then x
      else
        let two_k := 2 ^ (- e) in
        let mz := if sign then - Z.pos m else Z.pos m in
        let r := (2 * mz + two_k) / (2 * two_k) in
        if r =? 0
        then (if sign then PrimFloat.neg_zero else PrimFloat.zero)
        else of_Z r
  | _ => x
  end.

Definition binary64 : JSNumber PrimFloat.float :=
  Build_JSNumber PrimFloat.float (fun n => of_Z (Z.of_nat n))
                 PrimFloat.add PrimFloat.div PrimFloat.mul round_half_up
                 (fun a b => PrimFloat.leb a b = true).

End Binary64.

(** A run over a PDF of three pages, the second of which fails to extract,
    a file of another type, and a PDF whose second page fails to render. *)
Definition sample_files : list FileInput :=
  [PdfPages [Extracted hallim; ExtractThrows (ErrorObject "quota");
             Extracted aewol_1];
   OtherType;
   PdfPages [Extracted aewol_2; RenderThrows (ErrorObject "Canvas context error");
             Extracted hallim]].

Definition sample_state : AppState Qcanon.Qc :=
  mkAppState [hallim] false (ExactNumber.whole 100) (Some "old") [].

(** ** Candidate selection (toggleCandidate, selectAllCandidates,
    clearAllCandidates) *)

Definition TARGET_CANDIDATES : list string :=
  ["이재명"; "김문수"; "이준석"; "권영국"; "송진호"].

(** [l.includes(c)] *)
Definition includes (l : list string) (c : string) : bool :=
  existsb (String.eqb c) l.

(** The updater [toggleCandidate] hands to [setSelectedCandidates]. *)
Definition toggleCandidate (candidate : string) (prev : list string)
  : list string :=
  if includes prev candidate
  then filter (fun c => negb (c =? candidate)%string) prev
  else (prev ++ [candidate])%list.

Definition selectAllCandidates (prev : list string) : list string :=
  TARGET_CANDIDATES.

Definition clearAllCandidates (prev : list string) : list string := [].

(** The selections the page can be in: it starts from all targets; the
    filter buttons are rendered from [TARGET_CANDIDATES], so a toggle is
    always the toggle of a target. *)
Inductive reachable_selection : list string -> Prop :=
| selection_initial : reachable_selection TARGET_CANDIDATES
| selection_toggle (c : string) (s : list string) :
    In c TARGET_CANDIDATES -> reachable_selection s ->
    reachable_selection (toggleCandidate c s)
| selection_all (s : list string) :
    reachable_selection s -> reachable_selection (selectAllCandidates s)
| selection_clear (s : list string) :
    reachable_selection s -> reachable_selection (clearAllCandidates s).

(** The candidates of the analysis panel:
    [TARGET_CANDIDATES.filter(name => selectedCandidates.includes(name))]. *)
Definition panel_candidates (selectedCandidates : list string) : list string :=
  filter (fun name => includes selectedCandidates name) TARGET_CANDIDATES.

(** [l.indexOf(x)], -1 when [x] is absent. *)
Fixpoint indexOf (l : list string) (x : string) : Z :=
  match l with
  | [] => -1
  | y :: l' =>
      if (y =? x)%string then 0
      else match indexOf l' x with
           | Zneg _ => -1
           | i => i + 1
           end
  end.

(** [a[i]] for a whole number [i]; [None] is [undefined]. *)
Definition array_get {A : Type} (a : list A) (i : Z) : option A :=
  if i <? 0 then None else nth_error a (Z.to_nat i).

(** The bar colours of the analysis panel and [colors[colorIdx]]. *)
Definition panel_colors : list string :=
  ["bg-blue-500"; "bg-red-500"; "bg-amber-500"; "bg-emerald-500";
   "bg-purple-500"].

Definition panel_color (name : string) : option string :=
  array_get panel_colors (indexOf TARGET_CANDIDATES name).

(** ** Image payload (extractDataFromImage) *)

Definition comma_char : ascii := ascii_of_nat 44.

(** [s.split(',')]: the pieces of [s] between its commas; one piece, [s]
    itself, when [s] has no comma. *)
Fixpoint split_comma (s : string) : list string :=
  match s with
  | EmptyString => [EmptyString]
  | String ch rest =>
      if Ascii.eqb ch comma_char then EmptyString :: split_comma rest
      else match split_comma rest with
           | piece :: pieces => String ch piece :: pieces
           | [] => [String ch EmptyString]
           end
  end.

(** The inline data sent for a page image:
    [base64Image.split(',')[1] || base64Image]. *)
Definition image_payload (base64Image : string) : string :=
  match nth_error (split_comma base64Image) 1 with
  | Some piece => if (piece =? EmptyString)%string then base64Image else piece
  | None => base64Image
  end.

(** *** Vocabulary of the further statements *)

(** Occurrences of a character in a string. *)
Fixpoint count_char (c : ascii) (s : string) : nat :=
  match s with
  | EmptyString => 0
  | String ch rest => (if Ascii.eqb ch c then 1 else 0) + count_char c rest
  end.

Definition newline_char : ascii := ascii_of_nat 10.

(** A field without comma and without line break. *)
Definition plain_field (s : string) : Prop :=
  count_char comma_char s = 0%nat /\ count_char newline_char s = 0%nat.

(** A page that differs from [r] in district and voting type only. *)
Definition relabel (d t : string) (r : ElectionPageData) : ElectionPageData :=
  mkElectionPageData (pageNumber r) d t (candidateVotes r) (validVotes r)
                     (invalidVotes r) (totalVotes r).

(** The text between two quoted fields of a row. *)
Definition field_break : string := dquote ++ "," ++ dquote.





(** * Properties *)

(** ** Dictionaries *)

Section DictFacts.
Context {V : Type}.
Implicit Types (m : Dict V) (k : string).



Lemma get_Some_in m k v : get k m = Some v -> In (k, v) m.
Proof.
  induction m as [|[k' v'] m IH]; simpl; [discriminate|].
  destruct (String.eqb_spec k' k) as [->|Hne].
  - intros [= ->]. now left.
  - intros Hg. right. auto.
Qed.

Lemma in_get_nodup m k v :
  NoDup (map fst m) -> In (k, v) m -> get k m = Some v.
Proof.
  induction m as [|[k' v'] m IH]; simpl; [tauto|].
  intros Hnd [Heq|Hin].
  - injection Heq as -> ->. now rewrite String.eqb_refl.
  - inversion Hnd as [|? ? Hnotin Hnd']; subst.
    destruct (String.eqb_spec k' k) as [->|Hne].
    + exfalso. apply Hnotin. change k with (fst (k, v)). now apply in_map.
    + auto.
Qed.




End DictFacts.

(** ** Page classifier *)

(** C1. For every page index [i] and extractor-provided voting type [v]:
    pages 1..26 give "관내사전 (Early In)", pages 27..168 give
    "선거일 (Election Day)", page 169 "관외사전 (Early Out)", page 170
    "재외투표 (Overseas)", page 171 "거소/선상 (Absentee)"; every other index
    (0 and 172 in particular) returns [v] unchanged; and on 1..171 the result
    does not depend on [v]. *)
Theorem mappedType_ranges (i : nat) (v : string) :
  ((1 <= i <= 26)%nat -> mappedType i v = "관내사전 (Early In)") /\
  ((27 <= i <= 168)%nat -> mappedType i v = "선거일 (Election Day)") /\
  (i = 169%nat -> mappedType i v = "관외사전 (Early Out)") /\
  (i = 170%nat -> mappedType i v = "재외투표 (Overseas)") /\
  (i = 171%nat -> mappedType i v = "거소/선상 (Absentee)") /\
  (~ (1 <= i <= 171)%nat -> mappedType i v = v) /\
  mappedType 0 v = v /\ mappedType 172 v = v /\
  ((1 <= i <= 171)%nat -> forall v', mappedType i v' = mappedType i v).
Proof.
  unfold mappedType.
  repeat split; intros;
    repeat match goal with
           | |- context [(?a <=? ?b)%nat] => destruct (Nat.leb_spec a b)
           | |- context [(?a =? ?b)%nat] => destruct (Nat.eqb_spec a b)
           end; simpl; try reflexivity; lia.
Qed.

(** Instance of the classifier at page 5. *)
Lemma mappedType_ranges_witness : mappedType 5 "x" = "관내사전 (Early In)".
Proof. apply (proj1 (mappedType_ranges 5 "x")). lia. Defined.


(** ** Keyed accumulation *)

Section Keyed.
Context {A V : Type}.
Variable keyof : A -> string.
Variable init : string -> V.
Variable upd : A -> V -> V.






End Keyed.

(** ** Keys in first-seen order *)





Lemma NoDup_filter {A} (p : A -> bool) (l : list A) :
  NoDup l -> NoDup (filter p l).
Proof.
  induction 1 as [|x l Hx Hnd IH]; simpl; [constructor|].
  destruct (p x); [constructor|]; auto.
  rewrite filter_In. tauto.
Qed.


(** ** Own-property order *)






(** ** The dictionary built by the aggregator *)











(** ** The aggregator output *)















(** The scenario of one 한림읍 page: one summary with the page's own totals. *)
Lemma districtSummary_hallim :
  districtSummary [hallim]
  = [mkAggregatedData "한림읍" [("이재명", mkCandidateTotals 100 5 105)]
                      105 2 107].
Proof. reflexivity. Qed.

(** Two 애월읍 pages give one summary with summed totals. *)
Lemma districtSummary_aewol :
  districtSummary [aewol_1; aewol_2]
  = [mkAggregatedData "애월읍" [("이재명", mkCandidateTotals 40 1 41);
                               ("김문수", mkCandidateTotals 37 2 39)]
                      80 4 84].
Proof. reflexivity. Qed.

(** ** Page order *)






(** ** Text of the CSV table *)

Lemma append_nil_r (s : string) : s ++ EmptyString = s.
Proof. induction s; simpl; congruence. Qed.

Lemma append_assoc (s t u : string) : (s ++ t) ++ u = s ++ (t ++ u).
Proof. induction s; simpl; congruence. Qed.

(** Every cell preceded by a comma. *)
Lemma join_cells_cons (c : string) (cells : list string) :
  join_cells (c :: cells)
  = c ++ concat_all (map (fun x => "," ++ x) cells).
Proof.
  unfold join_cells. revert c.
  induction cells as [|x cells IH]; intros c.
  - simpl. now rewrite append_nil_r.
  - change (String.concat "," (c :: x :: cells))
      with (c ++ "," ++ String.concat "," (x :: cells)).
    rewrite IH. cbn [map concat_all fold_right].
    now rewrite !append_assoc.
Qed.

Lemma fold_cells {A} (f1 f2 f3 : A -> string) (l : list A) (start : string) :
  fold_left (fun acc a => acc ++ "," ++ f1 a ++ "," ++ f2 a ++ "," ++ f3 a)
            l start
  = start ++ concat_all
               (map (fun x => "," ++ x)
                    (flat_map (fun a => [f1 a; f2 a; f3 a]) l)).
Proof.
  revert start. induction l as [|a l IH]; intros start.
  - simpl. now rewrite append_nil_r.
  - cbn [fold_left flat_map app map concat_all fold_right]. rewrite IH.
    rewrite !append_assoc. reflexivity.
Qed.

Lemma flat_map_triple {A B C} (g : B -> C) (f1 f2 f3 : A -> B) (l : list A) :
  flat_map (fun a => [g (f1 a); g (f2 a); g (f3 a)]) l
  = map g (flat_map (fun a => [f1 a; f2 a; f3 a]) l).
Proof. induction l as [|a l IH]; simpl; congruence. Qed.

Lemma row_text (selected : list string) (r : ElectionPageData) :
  row selected r = join_cells (row_cells selected r).
Proof.
  unfold row, row_cells, row_numbers, quoted.
  rewrite (fold_cells (fun c => show (or_zero classifiedVotes (find_vote c r)))
                      (fun c => show (or_zero reconfirmVotes (find_vote c r)))
                      (fun c => show (or_zero cv_totalVotes (find_vote c r)))).
  rewrite join_cells_cons.
  cbn [map app concat_all fold_right]. rewrite !append_assoc.
  rewrite (flat_map_triple show). reflexivity.
Qed.

Lemma totalRow_text (selected : list string) (results : list ElectionPageData) :
  totalRow selected results = join_cells (totalRow_cells selected results).
Proof.
  unfold totalRow, totalRow_cells, total_numbers, quoted.
  rewrite (fold_cells
             (fun c => show (reduce_sum
                (fun r => or_zero classifiedVotes (find_vote c r)) results))
             (fun c => show (reduce_sum
                (fun r => or_zero reconfirmVotes (find_vote c r)) results))
             (fun c => show (reduce_sum
                (fun r => or_zero cv_totalVotes (find_vote c r)) results))).
  rewrite join_cells_cons.
  cbn [map app concat_all fold_right]. rewrite !append_assoc.
  rewrite (flat_map_triple show). reflexivity.
Qed.

Lemma fold_headers (selected : list string) (start : string) :
  fold_left
    (fun headers c =>
       headers ++ "," ++ c ++ "_분류," ++ c ++ "_재확인," ++ c ++ "_계")
    selected start
  = start ++ concat_all
               (map (fun x => "," ++ x)
                    (flat_map (fun c => [c ++ "_분류"; c ++ "_재확인"; c ++ "_계"])
                              selected)).
Proof.
  revert start. induction selected as [|c l IH]; intros start.
  - simpl. now rewrite append_nil_r.
  - cbn [fold_left flat_map app map concat_all fold_right]. rewrite IH.
    rewrite !append_assoc. reflexivity.
Qed.

Lemma headers_text (selected : list string) :
  headers selected = join_cells (header_cells selected).
Proof.
  unfold headers, header_cells. rewrite fold_headers.
  cbn [app]. rewrite join_cells_cons.
  cbn [map concat_all fold_right]. now rewrite !append_assoc.
Qed.

Lemma fold_lines (f : ElectionPageData -> string)
  (results : list ElectionPageData) (start : string) :
  fold_left (fun csv r => csv ++ f r ++ newline) results start
  = start ++ lines_text (map f results).
Proof.
  revert start. induction results as [|r rs IH]; intros start; simpl.
  - now rewrite append_nil_r.
  - rewrite IH. unfold lines_text. simpl. now rewrite !append_assoc.
Qed.

Lemma concat_all_app (l1 l2 : list string) :
  concat_all (l1 ++ l2)%list = concat_all l1 ++ concat_all l2.
Proof.
  induction l1 as [|s l1 IH]; simpl; [reflexivity|].
  now rewrite IH, append_assoc.
Qed.

Lemma csv_text (selected : list string) (results : list ElectionPageData) :
  csv selected results = lines_text (csv_lines selected results).
Proof.
  unfold csv, csv_lines. rewrite fold_lines.
  unfold lines_text. cbn [map concat_all fold_right].
  rewrite map_app, concat_all_app. cbn [map concat_all fold_right].
  now rewrite !append_assoc, append_nil_r.
Qed.

Lemma csv_lines_last (selected : list string) (results : list ElectionPageData) :
  last (csv_lines selected results) EmptyString = totalRow selected results.
Proof.
  unfold csv_lines.
  change (headers selected :: map (row selected) results
            ++ [totalRow selected results])%list
    with ((headers selected :: map (row selected) results)
            ++ [totalRow selected results])%list.
  apply last_last.
Qed.

(** ** Cells by column *)

Lemma nth_error_triple {A B} (f1 f2 f3 : A -> B) (l : list A) (k : nat) (a : A) :
  nth_error l k = Some a ->
  nth_error (flat_map (fun a => [f1 a; f2 a; f3 a]) l) (3 * k) = Some (f1 a) /\
  nth_error (flat_map (fun a => [f1 a; f2 a; f3 a]) l) (3 * k + 1) = Some (f2 a) /\
  nth_error (flat_map (fun a => [f1 a; f2 a; f3 a]) l) (3 * k + 2) = Some (f3 a).
Proof.
  revert k. induction l as [|x l IH]; intros k Hk.
  - now destruct k.
  - destruct k as [|k]; simpl in Hk.
    + injection Hk as ->. simpl. auto.
    + replace (3 * S k)%nat with (S (S (S (3 * k)))) by lia.
      simpl. now apply IH.
Qed.

Lemma show_injective (a b : Z) : show a = show b -> a = b.
Proof.
  unfold show. intros Heq.
  assert (Some (Z.to_int a) = Some (Z.to_int b)) as Hs
    by (rewrite <- !NilEmpty.isi; now rewrite Heq).
  injection Hs as Hs.
  rewrite <- (DecimalZ.of_to a), <- (DecimalZ.of_to b). now rewrite Hs.
Qed.

Lemma or_zero_Some (f : CandidateVote -> Z) (cv : CandidateVote) :
  or_zero f (Some cv) = f cv.
Proof. unfold or_zero. destruct (Z.eqb_spec (f cv) 0); congruence. Qed.

Lemma find_vote_Some (c : string) (r : ElectionPageData) (cv0 : CandidateVote) :
  In cv0 (candidateVotes r) -> candidateName cv0 = c ->
  exists cv, find_vote c r = Some cv /\ In cv (candidateVotes r)
             /\ candidateName cv = c.
Proof.
  unfold find_vote. intros Hin Hname.
  destruct (find (fun v => (candidateName v =? c)%string) (candidateVotes r))
    as [cv|] eqn:Hf.
  - exists cv. apply find_some in Hf. destruct Hf as [Hcv Heq].
    apply String.eqb_eq in Heq. auto.
  - apply (find_none _ _ Hf) in Hin. apply String.eqb_neq in Hin. contradiction.
Qed.

Lemma row_cells_columns (selected : list string) (r : ElectionPageData)
  (k : nat) (c : string) :
  nth_error selected k = Some c ->
  nth_error (row_cells selected r) (classified_column k)
  = Some (show (or_zero classifiedVotes (find_vote c r))) /\
  nth_error (row_cells selected r) (reconfirm_column k)
  = Some (show (or_zero reconfirmVotes (find_vote c r))) /\
  nth_error (row_cells selected r) (total_column k)
  = Some (show (or_zero cv_totalVotes (find_vote c r))).
Proof.
  intros Hk. unfold row_cells, row_numbers, classified_column,
    reconfirm_column, total_column.
  cbn [app map Nat.add nth_error]. rewrite <- (flat_map_triple show).
  apply (nth_error_triple
           (fun c => show (or_zero classifiedVotes (find_vote c r)))
           (fun c => show (or_zero reconfirmVotes (find_vote c r)))
           (fun c => show (or_zero cv_totalVotes (find_vote c r))) _ _ _ Hk).
Qed.

Lemma header_cells_columns (selected : list string) (k : nat) (c : string) :
  nth_error selected k = Some c ->
  nth_error (header_cells selected) (classified_column k) = Some (c ++ "_분류") /\
  nth_error (header_cells selected) (reconfirm_column k) = Some (c ++ "_재확인") /\
  nth_error (header_cells selected) (total_column k) = Some (c ++ "_계").
Proof.
  intros Hk. unfold header_cells, classified_column, reconfirm_column,
    total_column.
  cbn [app Nat.add nth_error].
  apply (nth_error_triple (fun c => c ++ "_분류") (fun c => c ++ "_재확인")
                          (fun c => c ++ "_계") _ _ _ Hk).
Qed.

Lemma downloadCSV_text (results : list ElectionPageData)
  (selected : list string) :
  results <> [] -> selected <> [] ->
  downloadCSV results selected
  = Some ("21대대선_심사집계부_"
            ++ show (Z.of_nat (List.length selected)) ++ "명.csv",
          BOM ++ lines_text (csv_lines selected results)).
Proof.
  intros Hr Hs. unfold downloadCSV.
  destruct results as [|r0 rs]; [congruence|].
  destruct selected as [|c0 cs]; [congruence|].
  cbn [List.length Nat.eqb orb]. now rewrite csv_text.
Qed.

(** C4. For every page of the results and every selected candidate with an
    entry on that page, the exported text has the row of the page among its
    lines, and on that row the cell under the candidate's '계' header is the
    text of the stored totalVotes of the entry [find] returns, which is an
    entry of that candidate on that page; when the stored value differs from
    classifiedVotes + reconfirmVotes, the cell is not the text of that
    sum. *)
Theorem row_total_cell_verbatim (results : list ElectionPageData)
  (selected : list string) (r : ElectionPageData) (k : nat) (c : string) :
  In r results ->
  nth_error selected k = Some c ->
  (exists cv0, In cv0 (candidateVotes r) /\ candidateName cv0 = c) ->
  (exists name,
      downloadCSV results selected
      = Some (name, BOM ++ lines_text (csv_lines selected results))) /\
  In (row selected r) (csv_lines selected results) /\
  row selected r = join_cells (row_cells selected r) /\
  nth_error (header_cells selected) (total_column k) = Some (c ++ "_계") /\
  exists cv,
    find_vote c r = Some cv /\
    In cv (candidateVotes r) /\ candidateName cv = c /\
    nth_error (row_cells selected r) (total_column k)
    = Some (show (cv_totalVotes cv)) /\
    (cv_totalVotes cv <> classifiedVotes cv + reconfirmVotes cv ->
     nth_error (row_cells selected r) (total_column k)
     <> Some (show (classifiedVotes cv + reconfirmVotes cv))).
Proof.
  intros Hr Hk [cv0 [Hin Hname]].
  split; [|split; [|split; [|split]]].
  - eexists. apply downloadCSV_text.
    + intros ->. exact Hr.
    + intros ->. now destruct k.
  - unfold csv_lines. right. apply in_or_app. left. now apply in_map.
  - apply row_text.
  - now apply header_cells_columns.
  - destruct (find_vote_Some c r cv0 Hin Hname) as [cv (Hf & Hcv & Hc)].
    exists cv. repeat split; try assumption.
    + destruct (row_cells_columns selected r k c Hk) as (_ & _ & Ht).
      now rewrite Ht, Hf, or_zero_Some.
    + intros Hne.
      destruct (row_cells_columns selected r k c Hk) as (_ & _ & Ht).
      rewrite Ht, Hf, or_zero_Some. intros [= Heq].
      apply show_injective in Heq. contradiction.
Qed.

(** Instance: a stored total of 999 against 100 + 5 is written as 999. *)
Lemma row_total_cell_verbatim_witness :
  nth_error (row_cells ["이재명"; "김문수"] inconsistent_page) (total_column 0)
  = Some "999" /\
  row ["이재명"; "김문수"] inconsistent_page
  = join_cells (row_cells ["이재명"; "김문수"] inconsistent_page).
Proof.
  destruct (row_total_cell_verbatim [hallim; inconsistent_page]
              ["이재명"; "김문수"] inconsistent_page 0 "이재명")
    as (_ & _ & Hrow & _ & cv & Hf & _ & _ & Hcell & _).
  - right. now left.
  - reflexivity.
  - exists (mkCandidateVote "이재명" 100 5 999). split; [|reflexivity].
    right. now left.
  - split; [|exact Hrow].
    injection Hf as <-. exact Hcell.
Defined.

(** ** Totals row *)

Lemma reduce_sum_sumZ (f : ElectionPageData -> Z) (rs : list ElectionPageData) :
  reduce_sum f rs = sumZ f rs.
Proof.
  unfold reduce_sum.
  assert (forall a, fold_left (fun acc r => acc + f r) rs a = a + sumZ f rs) as Hgen.
  { induction rs as [|r rs IH]; intros a; simpl; [lia|]. rewrite IH. lia. }
  now rewrite Hgen.
Qed.

Lemma sumZ_ext {A} (f g : A -> Z) (l : list A) :
  (forall a, f a = g a) -> sumZ f l = sumZ g l.
Proof. intros Hfg. induction l as [|a l IH]; simpl; [reflexivity|]. now rewrite Hfg, IH. Qed.

Lemma sumZ_zero {A} (l : list A) : sumZ (fun _ => 0) l = 0.
Proof. induction l as [|a l IH]; simpl; [reflexivity|]. now rewrite IH. Qed.

Lemma candidate_columns_sum (selected : list string)
  (results : list ElectionPageData) (j : nat) :
  nth j (flat_map
           (fun c =>
              [reduce_sum (fun r => or_zero classifiedVotes (find_vote c r)) results;
               reduce_sum (fun r => or_zero reconfirmVotes (find_vote c r)) results;
               reduce_sum (fun r => or_zero cv_totalVotes (find_vote c r)) results])
           selected) 0
  = sumZ (fun r =>
            nth j (flat_map (fun c => [or_zero classifiedVotes (find_vote c r);
                                       or_zero reconfirmVotes (find_vote c r);
                                       or_zero cv_totalVotes (find_vote c r)])
                            selected) 0)
         results.
Proof.
  revert j. induction selected as [|c l IH]; intros j.
  - simpl. destruct j; now rewrite sumZ_zero.
  - destruct j as [|[|[|j]]]; cbn [flat_map app nth];
      try apply reduce_sum_sumZ. apply IH.
Qed.

Lemma total_numbers_columns (selected : list string)
  (results : list ElectionPageData) (j : nat) :
  nth j (total_numbers selected results) 0
  = sumZ (fun r => nth j (row_numbers selected r) 0) results.
Proof.
  unfold total_numbers, row_numbers.
  destruct j as [|[|[|j]]]; cbn [app nth]; try apply reduce_sum_sumZ.
  apply candidate_columns_sum.
Qed.

Lemma total_numbers_sums (selected : list string)
  (results : list ElectionPageData) :
  total_numbers selected results
  = ([sumZ validVotes results; sumZ invalidVotes results;
      sumZ totalVotes results]
       ++ flat_map
            (fun c =>
               [sumZ (fun r => or_zero classifiedVotes (find_vote c r)) results;
                sumZ (fun r => or_zero reconfirmVotes (find_vote c r)) results;
                sumZ (fun r => or_zero cv_totalVotes (find_vote c r)) results])
            selected)%list.
Proof.
  unfold total_numbers. rewrite !reduce_sum_sumZ.
  apply (f_equal (fun l => _ :: _ :: _ :: l)).
  apply flat_map_ext. intros c. now rewrite !reduce_sum_sumZ.
Qed.

Lemma find_vote_absent (c : string) (r : ElectionPageData)
  (f : CandidateVote -> Z) :
  (forall cv, In cv (candidateVotes r) -> candidateName cv <> c) ->
  or_zero f (find_vote c r) = 0.
Proof.
  intros Habs. unfold find_vote.
  destruct (find _ (candidateVotes r)) as [cv|] eqn:Hf; [|reflexivity].
  apply find_some in Hf. destruct Hf as [Hin Heq].
  apply String.eqb_eq in Heq. now apply Habs in Hin.
Qed.

(** C5. For a non-empty results collection and a non-empty selection the
    exporter produces a file whose last line is the totals row: its first
    cell is the quoted label 전체 합계, its second cell the quoted empty
    string, and its numeric cells are, column by column, the sums of the
    numeric cells of the rows of all pages: valid, invalid and total votes,
    then per selected candidate the classified, reconfirm and total values,
    a page without an entry of the candidate counting 0. *)
Theorem totalRow_column_sums (results : list ElectionPageData)
  (selected : list string) :
  results <> [] -> selected <> [] ->
  exists name text,
    downloadCSV results selected = Some (name, text) /\
    text = BOM ++ lines_text (csv_lines selected results) /\
    csv_lines selected results
    = (headers selected :: map (row selected) results
         ++ [totalRow selected results])%list /\
    last (csv_lines selected results) EmptyString = totalRow selected results /\
    totalRow selected results
    = join_cells (quoted "전체 합계" :: quoted EmptyString
                    :: map show (total_numbers selected results)) /\
    (forall r, row selected r
               = join_cells (quoted (district r) :: quoted (votingType r)
                               :: map show (row_numbers selected r))) /\
    (forall j, nth j (total_numbers selected results) 0
               = sumZ (fun r => nth j (row_numbers selected r) 0) results) /\
    total_numbers selected results
    = ([sumZ validVotes results; sumZ invalidVotes results;
        sumZ totalVotes results]
         ++ flat_map
              (fun c =>
                 [sumZ (fun r => or_zero classifiedVotes (find_vote c r)) results;
                  sumZ (fun r => or_zero reconfirmVotes (find_vote c r)) results;
                  sumZ (fun r => or_zero cv_totalVotes (find_vote c r)) results])
              selected)%list /\
    (forall c r f,
        (forall cv, In cv (candidateVotes r) -> candidateName cv <> c) ->
        or_zero f (find_vote c r) = 0).
Proof.
  intros Hr Hs.
  eexists. eexists. split; [now apply downloadCSV_text|].
  split; [reflexivity|].
  split; [reflexivity|].
  split; [apply csv_lines_last|].
  split; [apply totalRow_text|].
  split; [intros r; apply row_text|].
  split; [apply total_numbers_columns|].
  split; [apply total_numbers_sums|].
  intros c r f. apply find_vote_absent.
Qed.

(** Instance: two pages, two selected candidates. *)
Lemma totalRow_column_sums_witness :
  totalRow ["이재명"; "김문수"] [aewol_1; aewol_2]
  = join_cells [quoted "전체 합계"; quoted EmptyString;
                "80"; "4"; "84"; "40"; "1"; "41"; "37"; "2"; "39"].
Proof.
  destruct (totalRow_column_sums [aewol_1; aewol_2] ["이재명"; "김문수"])
    as (name & text & _ & _ & _ & _ & Hrow & _); [discriminate..|].
  exact Hrow.
Defined.

(** ** Repeated candidate entries on one page *)






(** ** Result accumulator *)

Section AccumulatorFacts.
Context {num : Type} `{JSNumber num}.
Implicit Types (st : AppState num).

(** A page whose extraction fails: one call, one log line, the progress
    update, no record, and the loop goes on. *)
Lemma page_step_extract_fails (s t n i : nat) (err : Thrown) st :
  exists st',
    page_step s t n i (ExtractThrows err) st = (Normal, st') /\
    results st' = results st /\
    isProcessing st' = isProcessing st /\ error st' = error st /\
    progress st' = progress_value s i n t /\
    trace st' = (trace st ++ [ExtractCall s i; ConsoleError i err;
                              SetProgress (progress_value s i n t)])%list.
Proof.
  eexists. split; [reflexivity|]. simpl.
  repeat split. now rewrite <- !app_assoc.
Qed.

Lemma page_step_extracted (s t n i : nat) (data : ElectionPageData) st :
  exists st',
    page_step s t n i (Extracted data) st = (Normal, st') /\
    results st' = (results st ++ [page_record i data])%list /\
    isProcessing st' = isProcessing st /\ error st' = error st /\
    progress st' = progress_value s i n t /\
    trace st' = (trace st ++ [ExtractCall s i;
                              SetProgress (progress_value s i n t)])%list.
Proof.
  eexists. split; [reflexivity|]. simpl.
  repeat split. now rewrite <- !app_assoc.
Qed.

(** The page loop, whatever the pages answer. *)
Lemma page_loop_collect (s t n : nat) (pages : list PageOutcome) (i : nat) st :
  exists st',
    page_loop s t n i pages st
    = (completion_of (snd (collect_pages i pages)), st') /\
    results st' = (results st ++ fst (collect_pages i pages))%list /\
    isProcessing st' = isProcessing st /\ error st' = error st /\
    trace st' = (trace st ++ page_events s t n i pages)%list.
Proof.
  revert i st. induction pages as [|p rest IH]; intros i st.
  - exists st. simpl. rewrite !app_nil_r. auto 10.
  - destruct p as [err|err|data].
    + exists st. simpl. rewrite !app_nil_r. auto 10.
    + destruct (page_step_extract_fails s t n i err st)
        as (st1 & Hstep & Hres & Hproc & Herr & _ & Htr).
      destruct (IH (S i) st1) as (st' & Hloop & Hres' & Hproc' & Herr' & Htr').
      exists st'. cbn [page_loop]. rewrite Hstep.
      cbn [collect_pages page_events].
      rewrite Hloop, Hres', Hres, Hproc', Hproc, Herr', Herr, Htr', Htr.
      rewrite <- !app_assoc. auto 10.
    + destruct (page_step_extracted s t n i data st)
        as (st1 & Hstep & Hres & Hproc & Herr & _ & Htr).
      destruct (IH (S i) st1) as (st' & Hloop & Hres' & Hproc' & Herr' & Htr').
      exists st'. cbn [page_loop]. rewrite Hstep.
      cbn [collect_pages page_events].
      destruct (collect_pages (S i) rest) as [rs failure] eqn:Hc.
      cbn [fst snd] in *.
      rewrite Hloop, Hres', Hres, Hproc', Hproc, Herr', Herr, Htr', Htr.
      rewrite <- !app_assoc. auto 10.
Qed.

Lemma collect_one_file (file : FileInput) :
  collect_files [file]
  = match file with
    | OtherType => ([], None)
    | OpenThrows err => ([], Some err)
    | PdfPages pages => collect_pages 1 pages
    end.
Proof.
  destruct file as [|err|pages]; try reflexivity.
  simpl. destruct (collect_pages 1 pages) as [rs [err|]]; [reflexivity|].
  now rewrite app_nil_r.
Qed.

Lemma processFile_collect (file : FileInput) (s t : nat) st :
  exists st',
    processFile file s t st
    = (completion_of (snd (collect_files [file])), st') /\
    results st' = (results st ++ fst (collect_files [file]))%list /\
    isProcessing st' = isProcessing st /\ error st' = error st /\
    trace st' = (trace st ++ file_events s t file)%list.
Proof.
  rewrite collect_one_file. destruct file as [|err|pages].
  - exists st. simpl. rewrite !app_nil_r. auto 10.
  - exists st. simpl. rewrite !app_nil_r. auto 10.
  - apply page_loop_collect.
Qed.

Lemma collect_files_cons (file : FileInput) (rest : list FileInput) :
  collect_files (file :: rest)
  = match snd (collect_files [file]) with
    | Some err => (fst (collect_files [file]), Some err)
    | None => ((fst (collect_files [file]) ++ fst (collect_files rest))%list,
               snd (collect_files rest))
    end.
Proof.
  rewrite collect_one_file. destruct file as [|err|pages]; cbn [collect_files].
  - now destruct (collect_files rest).
  - reflexivity.
  - destruct (collect_pages 1 pages) as [rs [err|]]; [reflexivity|].
    now destruct (collect_files rest).
Qed.

Lemma file_loop_collect (files : list FileInput) (i t : nat) st :
  exists st',
    file_loop i t files st = (completion_of (snd (collect_files files)), st') /\
    results st' = (results st ++ fst (collect_files files))%list /\
    isProcessing st' = isProcessing st /\ error st' = error st /\
    trace st' = (trace st ++ run_events i t files)%list.
Proof.
  revert i st. induction files as [|file rest IH]; intros i st.
  - exists st. simpl. rewrite !app_nil_r. auto 10.
  - destruct (processFile_collect file i t st)
      as (st1 & Hfile & Hres & Hproc & Herr & Htr).
    cbn [file_loop run_events]. rewrite Hfile, (collect_files_cons file rest).
    destruct (snd (collect_files [file])) as [err|]; cbn [completion_of fst snd].
    + exists st1. rewrite app_nil_r. auto 10.
    + destruct (IH (S i) st1) as (st' & Hloop & Hres' & Hproc' & Herr' & Htr').
      exists st'.
      rewrite Hloop, Hres', Hres, Hproc', Hproc, Herr', Herr, Htr', Htr.
      rewrite <- !app_assoc. auto 10.
Qed.

(** The whole run. *)
Lemma startExtraction_collect (files : list FileInput) st :
  files <> [] ->
  let st' := startExtraction files st in
  results st' = fst (collect_files files) /\
  isProcessing st' = false /\
  progress st' = of_nat 100 /\
  error st' = option_map error_text (snd (collect_files files)) /\
  trace st' = (trace st ++ SetProgress (of_nat 0)
                 :: run_events 0 (List.length files) files
                 ++ [SetProgress (of_nat 100)])%list.
Proof.
  intros Hne. unfold startExtraction.
  destruct files as [|f fs]; [congruence|].
  cbn [List.length Nat.eqb].
  set (files := f :: fs). fold (run_start st).
  destruct (file_loop_collect files 0 (S (List.length fs)) (run_start st))
    as (st1 & Hloop & Hres & Hproc & Herr & Htr).
  rewrite Hloop. cbv zeta.
  destruct (snd (collect_files files)) as [err|]; simpl;
    rewrite Hres, Htr; simpl; rewrite <- !app_assoc; simpl; auto 10.
Qed.

(** When every page renders, each page is extracted exactly once, in order. *)
Lemma page_events_calls (s t n : nat) (pages : list PageOutcome) (i : nat) :
  forallb renders pages = true ->
  collect_pages i pages = (page_records i pages, None) /\
  extract_calls (page_events s t n i pages)
  = map (pair s) (seq i (List.length pages)) /\
  console_errors (page_events s t n i pages) = failed_pages i pages.
Proof.
  revert i. induction pages as [|p rest IH]; intros i Hr; [now repeat split|].
  destruct p as [err|err|data]; [discriminate| |];
    destruct (IH (S i) Hr) as (Hc & Hcalls & Herrs);
    cbn [collect_pages page_records page_events failed_pages]; rewrite Hc;
    repeat split; simpl; now rewrite <- ?Hcalls, <- ?Herrs.
Qed.

(** ... and the progress is set once per page, to the value of the page. *)
Lemma page_events_values (s t n : nat) (pages : list PageOutcome) (i : nat) :
  forallb renders pages = true ->
  progress_values (page_events s t n i pages)
  = map (fun j => progress_value s j n t) (seq i (List.length pages)).
Proof.
  revert i. induction pages as [|p rest IH]; intros i Hr; [reflexivity|].
  destruct p as [err|err|data]; [discriminate| |];
    cbn [page_events List.length seq map];
    rewrite <- (IH (S i) Hr); reflexivity.
Qed.

Lemma run_events_calls (t : nat) (files : list FileInput) (i : nat) :
  forallb file_renders files = true ->
  collect_files files = (flat_map file_records files, None) /\
  extract_calls (run_events i t files) = run_calls i files.
Proof.
  revert i. induction files as [|file rest IH]; intros i Hr; [now split|].
  apply andb_prop in Hr. destruct Hr as [Hfile Hrest].
  destruct (IH (S i) Hrest) as [Hc Hcalls].
  assert (collect_files [file] = (file_records file, None)
          /\ extract_calls (file_events i t file) = file_calls i file)
    as [Hone Hev].
  { rewrite collect_one_file. destruct file as [|err|pages];
      [now split|discriminate|].
    destruct (page_events_calls i t (List.length pages) pages 1 Hfile)
      as (Hp & Hcalls' & _). now split. }
  rewrite (collect_files_cons file rest), Hone, Hc. cbn [fst snd]. split.
  - reflexivity.
  - cbn [run_events run_calls]. rewrite Hone. cbn [snd].
    unfold extract_calls in *. now rewrite flat_map_app, Hev, Hcalls.
Qed.

(** C6. A page whose extraction fails is handled on its own: the step ends
    normally after one extraction call and one log line, appends no record,
    and the loop proceeds with the next page. Hence, when every page of a
    file renders, the file ends normally with exactly the records of its
    extracted pages, one extraction call per page, in order, and one log
    line per failed extraction; and a run over files that all render ends
    without error message, with the records of every file and one
    extraction call for every page of every file. *)
Theorem extraction_failure_skips_page :
  (forall (s t n i : nat) (err : Thrown) (rest : list PageOutcome) st,
      exists st1,
        page_step s t n i (ExtractThrows err) st = (Normal, st1) /\
        results st1 = results st /\
        trace st1 = (trace st ++ [ExtractCall s i; ConsoleError i err;
                                  SetProgress (progress_value s i n t)])%list /\
        page_loop s t n i (ExtractThrows err :: rest) st
        = page_loop s t n (S i) rest st1) /\
  (forall (pages : list PageOutcome) (s t : nat) st,
      forallb renders pages = true ->
      exists st' evs,
        processFile (PdfPages pages) s t st = (Normal, st') /\
        results st' = (results st ++ page_records 1 pages)%list /\
        trace st' = (trace st ++ evs)%list /\
        extract_calls evs = map (pair s) (seq 1 (List.length pages)) /\
        console_errors evs = failed_pages 1 pages) /\
  (forall (files : list FileInput) st,
      files <> [] ->
      forallb file_renders files = true ->
      exists evs,
        error (startExtraction files st) = None /\
        results (startExtraction files st) = flat_map file_records files /\
        trace (startExtraction files st) = (trace st ++ evs)%list /\
        extract_calls evs = run_calls 0 files).
Proof.
  split; [|split].
  - intros s t n i err rest st.
    destruct (page_step_extract_fails s t n i err st)
      as (st1 & Hstep & Hres & _ & _ & _ & Htr).
    exists st1. cbn [page_loop]. rewrite Hstep. auto.
  - intros pages s t st Hr.
    destruct (page_loop_collect s t (List.length pages) pages 1 st)
      as (st' & Hloop & Hres & _ & _ & Htr).
    destruct (page_events_calls s t (List.length pages) pages 1 Hr)
      as (Hc & Hcalls & Herrs).
    rewrite Hc in Hloop, Hres. exists st'. eexists.
    cbn [processFile]. eauto 10.
  - intros files st Hne Hr.
    destruct (startExtraction_collect files st Hne) as (Hres & _ & _ & Herr & Htr).
    destruct (run_events_calls (List.length files) files 0 Hr) as [Hc Hcalls].
    rewrite Hc in Hres, Herr. eexists. split; [exact Herr|].
    split; [exact Hres|]. split; [exact Htr|].
    unfold extract_calls in *. cbn [flat_map app].
    now rewrite flat_map_app, Hcalls, app_nil_r.
Qed.

(** C7. A run over a non-empty file list ends with progress 100 and the
    processing flag cleared, also when a failure left the file loop; that
    failure becomes the one error message, no event follows it but the final
    progress update, and the results are exactly the records appended up to
    it. *)
Theorem startExtraction_finally (files : list FileInput) st :
  files <> [] ->
  let st' := startExtraction files st in
  progress st' = of_nat 100 /\
  isProcessing st' = false /\
  (forall completion st1,
      file_loop 0 (List.length files) files (run_start st) = (completion, st1) ->
      results st' = results st1 /\
      trace st' = (trace st1 ++ [SetProgress (of_nat 100)])%list /\
      error st' = match completion with
                  | Normal => None
                  | Throw err => Some (error_text err)
                  end) /\
  results st' = fst (collect_files files) /\
  error st' = option_map error_text (snd (collect_files files)).
Proof.
  intros Hne st'.
  destruct (startExtraction_collect files st Hne) as (Hres & Hproc & Hprog & Herr & Htr).
  split; [exact Hprog|]. split; [exact Hproc|].
  split; [|split; assumption].
  intros completion st1 Hloop. subst st'. unfold startExtraction.
  fold (run_start st).
  destruct files as [|f fs]; [congruence|]. cbn [List.length Nat.eqb] in *.
  destruct (file_loop_collect (f :: fs) 0 (S (List.length fs)) (run_start st))
    as (st2 & Hloop2 & _ & _ & Herr2 & _).
  rewrite Hloop in Hloop2. injection Hloop2 as _ <-.
  rewrite Hloop. destruct completion; simpl; auto.
Qed.

(** C10. With no file selected [startExtraction] returns at once: results,
    progress, error message, processing flag and event trace are the ones it
    was called with. *)
Theorem startExtraction_no_files st :
  startExtraction [] st = st /\
  results (startExtraction [] st) = results st /\
  progress (startExtraction [] st) = progress st /\
  error (startExtraction [] st) = error st /\
  isProcessing (startExtraction [] st) = isProcessing st /\
  trace (startExtraction [] st) = trace st.
Proof. repeat split. Qed.

End AccumulatorFacts.

(** ** Progress values *)

Section ProgressFacts.
Context {num : Type} {safe : nat -> Prop} `{JSNumberLaws num safe}.
Implicit Types (st : AppState num).

Lemma percent_mono (t : nat) (a b : num) :
  (0 < t)%nat -> safe t -> le a b -> le (percent t a) (percent t b).
Proof.
  intros Ht Hs Hab. apply round_le, mul_le_l; [lia|apply safe_100|].
  now apply div_le_l.
Qed.

Lemma percent_start (t : nat) :
  (0 < t)%nat -> safe t -> percent t (of_nat 0) = of_nat 0.
Proof.
  intros Ht Hs. unfold percent. rewrite div_zero by assumption.
  rewrite mul_of_nat by (apply (safe_le _ 100); [lia|apply safe_100]).
  apply round_of_nat. apply (safe_le _ 100); [lia|apply safe_100].
Qed.

Lemma percent_end (t : nat) :
  (0 < t)%nat -> safe t -> percent t (of_nat t) = of_nat 100.
Proof.
  intros Ht Hs. unfold percent. rewrite div_same by assumption.
  rewrite mul_of_nat by apply safe_100.
  apply round_of_nat, safe_100.
Qed.

(** The position [s + i / n] of page [i] of file [s]. *)
Lemma position_mono (s i j n : nat) :
  (0 < n)%nat -> safe n -> safe s -> (i <= j)%nat ->
  le (add (of_nat s) (div (of_nat i) (of_nat n)))
     (add (of_nat s) (div (of_nat j) (of_nat n))).
Proof.
  intros Hn Hsn Hs Hij. apply add_le_r; [assumption|].
  apply div_le_l; [assumption..|]. now apply of_nat_le.
Qed.

Lemma position_lower (s i n : nat) :
  (0 < n)%nat -> safe n -> safe s ->
  le (of_nat s) (add (of_nat s) (div (of_nat i) (of_nat n))).
Proof.
  intros Hn Hsn Hs.
  apply le_trans with (add (of_nat s) (div (of_nat 0) (of_nat n))).
  - rewrite div_zero by assumption.
    rewrite add_of_nat by now rewrite Nat.add_0_r.
    apply of_nat_le. lia.
  - apply position_mono; [assumption..|lia].
Qed.

Lemma position_upper (s i n : nat) :
  (0 < n)%nat -> safe n -> safe (S s) -> (i <= n)%nat ->
  le (add (of_nat s) (div (of_nat i) (of_nat n))) (of_nat (S s)).
Proof.
  intros Hn Hsn Hs Hi.
  assert (safe s) as Hs' by (apply (safe_le _ (S s)); [lia|assumption]).
  apply le_trans with (add (of_nat s) (div (of_nat n) (of_nat n))).
  - now apply position_mono.
  - rewrite div_same by assumption.
    rewrite add_of_nat by now rewrite Nat.add_1_r.
    apply of_nat_le. lia.
Qed.

Lemma progress_value_mono (s t n i j : nat) :
  (0 < t)%nat -> safe t -> (0 < n)%nat -> safe n -> safe s -> (i <= j)%nat ->
  le (progress_value s i n t) (progress_value s j n t).
Proof. intros. apply percent_mono; [assumption..|]. now apply position_mono. Qed.

Lemma progress_value_lower (s t n i : nat) :
  (0 < t)%nat -> safe t -> (0 < n)%nat -> safe n -> safe s ->
  le (percent t (of_nat s)) (progress_value s i n t).
Proof. intros. apply percent_mono; [assumption..|]. now apply position_lower. Qed.

Lemma progress_value_upper (s t n i : nat) :
  (0 < t)%nat -> safe t -> (0 < n)%nat -> safe n -> safe (S s) -> (i <= n)%nat ->
  le (progress_value s i n t) (percent t (of_nat (S s))).
Proof. intros. apply percent_mono; [assumption..|]. now apply position_upper. Qed.

Lemma percent_whole_mono (t m n : nat) :
  (0 < t)%nat -> safe t -> (m <= n)%nat ->
  le (percent t (of_nat m)) (percent t (of_nat n)).
Proof. intros. apply percent_mono; [assumption..|]. now apply of_nat_le. Qed.

(** Sorted lists between two bounds. *)
Lemma sorted_between_nil (lo hi : num) : sorted_between lo hi [].
Proof. split; constructor. Qed.

Lemma sorted_between_lower (lo lo' hi : num) (vs : list num) :
  le lo' lo -> sorted_between lo hi vs -> sorted_between lo' hi vs.
Proof.
  intros Hlo [Hs Hb]. split; [assumption|].
  eapply Forall_impl; [|exact Hb]. intros x [Hx1 Hx2]. split; [|assumption].
  now apply le_trans with lo.
Qed.

Lemma sorted_between_upper (lo hi hi' : num) (vs : list num) :
  le hi hi' -> sorted_between lo hi vs -> sorted_between lo hi' vs.
Proof.
  intros Hhi [Hs Hb]. split; [assumption|].
  eapply Forall_impl; [|exact Hb]. intros x [Hx1 Hx2]. split; [assumption|].
  now apply le_trans with hi.
Qed.

Lemma sorted_between_cons (lo hi v : num) (vs : list num) :
  le lo v -> le v hi -> sorted_between v hi vs ->
  sorted_between lo hi (v :: vs).
Proof.
  intros Hlo Hhi [Hs Hb]. split.
  - constructor; [assumption|].
    eapply Forall_impl; [|exact Hb]. now intros x [Hx _].
  - constructor; [now split|].
    eapply Forall_impl; [|exact Hb]. intros x [Hx1 Hx2]. split; [|assumption].
    now apply le_trans with v.
Qed.

Lemma sorted_between_app (lo mid hi : num) (vs ws : list num) :
  le lo mid -> le mid hi ->
  sorted_between lo mid vs -> sorted_between mid hi ws ->
  sorted_between lo hi (vs ++ ws)%list.
Proof.
  intros Hlo Hhi [Hs1 Hb1] Hw. induction vs as [|v vs IH]; simpl.
  - now apply sorted_between_lower with mid.
  - inversion Hs1 as [|? ? Hs1' Hall]; subst.
    inversion Hb1 as [|? ? [Hv1 Hv2] Hb1']; subst.
    destruct (IH Hs1' Hb1') as [Hs Hb]. split.
    + constructor; [assumption|]. apply Forall_app. split; [assumption|].
      destruct Hw as [_ Hbw]. eapply Forall_impl; [|exact Hbw].
      intros x [Hx _]. now apply le_trans with mid.
    + constructor; [|assumption]. split; [assumption|].
      now apply le_trans with mid.
Qed.

Lemma page_events_progress (s t n : nat) (pages : list PageOutcome) (i : nat) :
  (0 < t)%nat -> safe t -> safe n -> safe (S s) ->
  (1 <= i)%nat -> (i + List.length pages <= S n)%nat ->
  sorted_between (progress_value s i n t) (percent t (of_nat (S s)))
                 (progress_values (page_events s t n i pages)).
Proof.
  intros Ht Hst Hsn Hss.
  assert (safe s) as Hs by (apply (safe_le _ (S s)); [lia|assumption]).
  revert i. induction pages as [|p rest IH]; intros i Hi1 Hi.
  - apply sorted_between_nil.
  - cbn [List.length] in Hi.
    assert (0 < n)%nat as Hn by lia.
    assert (sorted_between (progress_value s i n t) (percent t (of_nat (S s)))
              (progress_value s i n t
                 :: progress_values (page_events s t n (S i) rest))) as Hcons.
    { apply sorted_between_cons.
      - apply progress_value_mono; [assumption..|lia].
      - apply progress_value_upper; [assumption..|lia].
      - apply sorted_between_lower with (progress_value s (S i) n t).
        + apply progress_value_mono; [assumption..|lia].
        + apply IH; lia. }
    destruct p as [err|err|data]; [apply sorted_between_nil | exact Hcons..].
Qed.

Lemma file_events_progress (s t : nat) (file : FileInput) :
  (0 < t)%nat -> safe t -> safe (S s) -> safe_file safe file ->
  sorted_between (percent t (of_nat s)) (percent t (of_nat (S s)))
                 (progress_values (file_events s t file)).
Proof.
  intros Ht Hst Hss Hf.
  assert (safe s) as Hs by (apply (safe_le _ (S s)); [lia|assumption]).
  destruct file as [|err|pages]; try apply sorted_between_nil.
  cbn [file_events safe_file] in *.
  destruct pages as [|p rest]; [apply sorted_between_nil|].
  apply sorted_between_lower
    with (progress_value s 1 (List.length (p :: rest)) t).
  - apply progress_value_lower; try assumption. simpl. lia.
  - apply page_events_progress; try assumption; lia.
Qed.

Lemma progress_values_app (evs1 evs2 : list (Event num)) :
  progress_values (evs1 ++ evs2)
  = (progress_values evs1 ++ progress_values evs2)%list.
Proof. apply flat_map_app. Qed.

Lemma run_events_progress (t : nat) (files : list FileInput) (i : nat) :
  (0 < t)%nat -> safe t -> Forall (safe_file safe) files ->
  (i + List.length files <= t)%nat ->
  sorted_between (percent t (of_nat i)) (percent t (of_nat t))
                 (progress_values (run_events i t files)).
Proof.
  intros Ht Hst Hfiles. revert i.
  induction Hfiles as [|file rest Hfile Hrest IH]; intros i Hi.
  - apply sorted_between_nil.
  - cbn [List.length] in Hi. cbn [run_events]. rewrite progress_values_app.
    apply sorted_between_app with (percent t (of_nat (S i))).
    + apply percent_whole_mono; [assumption..|lia].
    + apply percent_whole_mono; [assumption..|lia].
    + apply file_events_progress; try assumption.
      apply (safe_le _ t); [lia|assumption].
    + destruct (snd (collect_files [file])).
      * apply sorted_between_nil.
      * apply IH. lia.
Qed.

(** C8. After every page that rendered, whether its extraction succeeded or
    failed, the progress value is
    [Math.round(((startIndex + i / pagesCount) / totalFiles) * 100)], and
    that update is the last event of the step; a file whose pages all
    render sets the progress once per page, to these values with
    [pagesCount] the number of its pages; the progress values set during one
    run, from the initial 0 to the final 100, are in non-decreasing order
    (the number of files and the page counts being safe whole numbers). *)
Theorem progress_after_each_page :
  (forall (s t n i : nat) (p : PageOutcome) st,
      renders p = true ->
      exists st' evs,
        page_step s t n i p st = (Normal, st') /\
        progress st'
        = Math_round
            (mul (div (add (of_nat s) (div (of_nat i) (of_nat n))) (of_nat t))
                 (of_nat 100)) /\
        trace st' = (trace st ++ evs ++ [SetProgress (progress st')])%list) /\
  (forall (pages : list PageOutcome) (s t : nat) st,
      forallb renders pages = true ->
      exists st' evs,
        processFile (PdfPages pages) s t st = (Normal, st') /\
        trace st' = (trace st ++ evs)%list /\
        progress_values evs
        = map (fun i => progress_value s i (List.length pages) t)
              (seq 1 (List.length pages))) /\
  (forall (files : list FileInput) st,
      safe (List.length files) -> Forall (safe_file safe) files ->
      exists evs,
        trace (startExtraction files st) = (trace st ++ evs)%list /\
        StronglySorted le (progress_values evs)).
Proof.
  split; [|split].
  - intros s t n i p st Hp. destruct p as [err|err|data]; [discriminate| |].
    + destruct (page_step_extract_fails s t n i err st)
        as (st' & Hstep & _ & _ & _ & Hprog & Htr).
      exists st', [ExtractCall s i; ConsoleError i err].
      rewrite Hprog. auto.
    + destruct (page_step_extracted s t n i data st)
        as (st' & Hstep & _ & _ & _ & Hprog & Htr).
      exists st', [ExtractCall s i]. rewrite Hprog. auto.
  - intros pages s t st Hr.
    destruct (page_loop_collect s t (List.length pages) pages 1 st)
      as (st' & Hloop & _ & _ & _ & Htr).
    destruct (page_events_calls s t (List.length pages) pages 1 Hr) as [Hc _].
    rewrite Hc in Hloop. exists st'. eexists. cbn [processFile].
    split; [exact Hloop|]. split; [exact Htr|].
    now apply page_events_values.
  - intros files st Hst Hfiles. destruct files as [|f fs].
    + exists []. split; [now rewrite app_nil_r|constructor].
    + set (files := f :: fs) in *.
      assert (0 < List.length files)%nat as Ht by (simpl; lia).
      destruct (startExtraction_collect files st) as (_ & _ & _ & _ & Htr);
        [discriminate|].
      eexists. split; [exact Htr|].
      change (SetProgress (of_nat 0)
                :: run_events 0 (List.length files) files
                ++ [SetProgress (of_nat 100)])%list
        with ([SetProgress (of_nat 0)]
                ++ run_events 0 (List.length files) files
                ++ [SetProgress (of_nat 100)])%list.
      rewrite !progress_values_app.
      rewrite <- (percent_start (List.length files) Ht Hst).
      rewrite <- (percent_end (List.length files) Ht Hst).
      assert (le (percent (List.length files) (of_nat 0))
                 (percent (List.length files) (of_nat 0))) as H00
        by (apply percent_whole_mono; [assumption..|lia]).
      assert (le (percent (List.length files) (of_nat 0))
                 (percent (List.length files) (of_nat (List.length files))))
        as H0t by (apply percent_whole_mono; [assumption..|lia]).
      assert (le (percent (List.length files) (of_nat (List.length files)))
                 (percent (List.length files) (of_nat (List.length files))))
        as Htt by (apply percent_whole_mono; [assumption..|lia]).
      apply (sorted_between_app
               (percent (List.length files) (of_nat 0))
               (percent (List.length files) (of_nat 0))
               (percent (List.length files) (of_nat (List.length files))));
        try assumption.
      * simpl. apply sorted_between_cons; try assumption.
        apply sorted_between_nil.
      * apply (sorted_between_app
                 (percent (List.length files) (of_nat 0))
                 (percent (List.length files) (of_nat (List.length files)))
                 (percent (List.length files) (of_nat (List.length files))));
          try assumption.
        -- apply run_events_progress; try assumption. simpl. lia.
        -- simpl. apply sorted_between_cons; try assumption.
           apply sorted_between_nil.
Qed.

End ProgressFacts.

(** ** The exact arithmetic satisfies the laws *)

Module ExactNumberFacts.
Import QArith Qcanon Qround ExactNumber.

Lemma whole_le (m n : nat) : (m <= n)%nat -> Qcle (whole m) (whole n).
Proof.
  intros Hmn. unfold Qcle, whole. cbn [this Q2Qc]. rewrite !Qred_correct.
  rewrite <- Zle_Qle. lia.
Qed.

Lemma whole_nonneg (n : nat) : Qcle (Q2Qc 0) (whole n).
Proof. apply (whole_le 0 n). lia. Qed.

Lemma whole_nonzero (n : nat) : (0 < n)%nat -> whole n <> Q2Qc 0.
Proof.
  intros Hn Heq. unfold whole in Heq. apply Q2Qc_eq_iff in Heq.
  unfold Qeq in Heq. simpl in Heq. lia.
Qed.

Lemma inv_whole_nonneg (n : nat) : Qcle (Q2Qc 0) (Qcinv (whole n)).
Proof.
  unfold Qcle, Qcinv. cbn [this Q2Qc]. rewrite !Qred_correct.
  apply Qinv_le_0_compat. rewrite <- (Qred_correct 0).
  apply (whole_nonneg n).
Qed.

Lemma whole_add (m n : nat) : Qcplus (whole m) (whole n) = whole (m + n).
Proof.
  apply Qc_is_canon. unfold Qcplus, whole. cbn [this Q2Qc].
  rewrite !Qred_correct.
  rewrite Nat2Z.inj_add, inject_Z_plus. reflexivity.
Qed.

Lemma whole_mul (m n : nat) : Qcmult (whole m) (whole n) = whole (m * n).
Proof.
  apply Qc_is_canon. unfold Qcmult, whole. cbn [this Q2Qc].
  rewrite !Qred_correct.
  rewrite Nat2Z.inj_mul, inject_Z_mult. reflexivity.
Qed.

Lemma round_whole (n : nat) : round_half_up (whole n) = whole n.
Proof.
  unfold round_half_up, whole. f_equal. f_equal. cbn [this Q2Qc].
  rewrite (Qfloor_comp _ (inject_Z (Z.of_nat n) + (1 # 2))).
  - unfold Qfloor, Qplus, inject_Z. simpl.
    symmetry. apply Z.div_unique with 1%Z; lia.
  - now rewrite Qred_correct.
Qed.

Lemma round_le_exact (a b : Qc) :
  Qcle a b -> Qcle (round_half_up a) (round_half_up b).
Proof.
  intros Hab. unfold Qcle, round_half_up. cbn [this Q2Qc].
  rewrite !Qred_correct.
  rewrite <- Zle_Qle. apply Qfloor_resp_le.
  apply Qplus_le_compat; [exact Hab|apply Qle_refl].
Qed.

Lemma exact_laws : @JSNumberLaws Qc exact (fun _ => True).
Proof.
  constructor; simpl; auto.
  - apply Qcle_trans.
  - apply whole_le.
  - intros s b c _ Hbc. apply Qcplus_le_compat; [apply Qcle_refl|assumption].
  - intros a b n Hn _ Hab. unfold Qcdiv.
    apply Qcmult_le_compat_r; [assumption|apply inv_whole_nonneg].
  - intros a b n _ _ Hab.
    apply Qcmult_le_compat_r; [assumption|apply whole_nonneg].
  - apply round_le_exact.
  - intros m n _. apply whole_add.
  - intros m n _. apply whole_mul.
  - intros n Hn _. unfold Qcdiv. apply Qcmult_inv_r. now apply whole_nonzero.
  - intros n Hn _. unfold Qcdiv. apply Qcmult_0_l.
  - intros n _. apply round_whole.
Qed.

End ExactNumberFacts.

(** ** Instances on a sample run *)

(** Instance of C6: the second page of the first sample file fails to
    extract; the file ends normally with the records of pages 1 and 3. *)
Lemma extraction_failure_skips_page_witness :
  exists st' evs,
    processFile (PdfPages [Extracted hallim; ExtractThrows (ErrorObject "quota");
                           Extracted aewol_1]) 0 1 sample_state
    = (Normal, st') /\
    results st'
    = (results sample_state
         ++ [page_record 1 hallim; page_record 3 aewol_1])%list /\
    trace st' = (trace sample_state ++ evs)%list /\
    extract_calls evs = [(0, 1); (0, 2); (0, 3)]%nat /\
    console_errors evs = [(2%nat, ErrorObject "quota")].
Proof.
  apply (proj1 (proj2 (@extraction_failure_skips_page
                         Qcanon.Qc ExactNumber.exact))).
  reflexivity.
Defined.

(** Instance of C7: the third sample file fails to render its second page;
    the run ends with progress 100, the flag cleared, the four records
    appended before the failure and one error message. *)
Lemma startExtraction_finally_witness :
  progress (startExtraction sample_files sample_state) = ExactNumber.whole 100 /\
  isProcessing (startExtraction sample_files sample_state) = false /\
  results (startExtraction sample_files sample_state)
  = [page_record 1 hallim; page_record 3 aewol_1; page_record 1 aewol_2] /\
  error (startExtraction sample_files sample_state)
  = Some "Extraction failed: Canvas context error".
Proof.
  destruct (@startExtraction_finally Qcanon.Qc ExactNumber.exact
              sample_files sample_state)
    as (Hprog & Hproc & _ & Hres & Herr); [discriminate|].
  split; [exact Hprog|]. split; [exact Hproc|].
  split; [exact Hres|exact Herr].
Defined.

(** Instance of C8 in exact arithmetic: the progress values of the sample
    run are in non-decreasing order. *)
Lemma progress_after_each_page_witness :
  exists evs,
    trace (startExtraction sample_files sample_state)
    = (trace sample_state ++ evs)%list /\
    StronglySorted Qcanon.Qcle (progress_values evs).
Proof.
  apply (proj2 (proj2 (@progress_after_each_page Qcanon.Qc (fun _ => True)
                         ExactNumber.exact ExactNumberFacts.exact_laws))).
  - exact I.
  - repeat constructor.
Defined.

(** The progress values of the sample run, in exact arithmetic. *)
Lemma sample_run_progress :
  map Qcanon.this
      (progress_values (trace (startExtraction sample_files sample_state)))
  = map QArith_base.inject_Z [0; 11; 22; 33; 78; 100].
Proof. vm_compute. reflexivity. Qed.

(** ** The progress expression in binary64

    Page 29 of a single file of 200 pages: in binary64 the product
    29/200*100 is 14.499999999999998 and rounds to 14; in exact arithmetic
    it is 14.5 and rounds to 15. *)
Lemma progress_page_29_of_200 :
  @progress_value PrimFloat.float Binary64.binary64 0 29 200 1
  = Binary64.of_Z 14 /\
  Qcanon.this (@progress_value Qcanon.Qc ExactNumber.exact 0 29 200 1)
  = QArith_base.inject_Z 15.
Proof. split; vm_compute; reflexivity. Qed.

(** The progress values of the sample run in binary64. *)
Lemma sample_run_progress_binary64 :
  progress_values
    (trace (@startExtraction PrimFloat.float Binary64.binary64 sample_files
              (mkAppState [] false (Binary64.of_Z 0) None [])))
  = map Binary64.of_Z [0; 11; 22; 33; 78; 100].
Proof. vm_compute. reflexivity. Qed.

(** * Further properties *)

(** ** Candidate selection *)

Lemma includes_In (l : list string) (c : string) :
  includes l c = true <-> In c l.
Proof.
  unfold includes. rewrite existsb_exists. split.
  - intros [x [Hin Heq]]. apply String.eqb_eq in Heq. now subst.
  - intros Hin. exists c. split; [assumption|apply String.eqb_refl].
Qed.

Lemma includes_app (l1 l2 : list string) (c : string) :
  includes (l1 ++ l2)%list c = (includes l1 c || includes l2 c)%bool.
Proof. apply existsb_app. Qed.

Ltac string_cases :=
  repeat match goal with
         | |- context [(?a =? ?b)%string] =>
             destruct (String.eqb_spec a b); subst
         end;
  simpl; try reflexivity; try congruence.

Lemma includes_filter_neq (l : list string) (c x : string) :
  includes (filter (fun y => negb (y =? c)%string) l) x
  = (negb (x =? c)%string && includes l x)%bool.
Proof.
  unfold includes. induction l as [|y l IH]; simpl.
  - now rewrite andb_false_r.
  - destruct (String.eqb_spec y c) as [Hyc|Hyc]; simpl; rewrite IH;
      string_cases.
Qed.

(** X1. A toggle flips the membership of the toggled candidate and leaves
    the membership of every other candidate as it was. *)
Theorem toggleCandidate_includes (c x : string) (prev : list string) :
  includes (toggleCandidate c prev) x
  = if (x =? c)%string then negb (includes prev c) else includes prev x.
Proof.
  unfold toggleCandidate. destruct (includes prev c) eqn:Hc.
  - rewrite includes_filter_neq.
    destruct (String.eqb_spec x c) as [->|Hne]; reflexivity.
  - rewrite includes_app. simpl. rewrite orb_false_r.
    destruct (String.eqb_spec x c) as [->|Hne]; simpl.
    + now rewrite Hc.
    + now rewrite orb_false_r.
Qed.

Lemma filter_neq_absent (l : list string) (c : string) :
  includes l c = false -> filter (fun y => negb (y =? c)%string) l = l.
Proof.
  unfold includes. induction l as [|y l IH]; simpl; [reflexivity|].
  intros Hc. apply orb_false_elim in Hc. destruct Hc as [Hy Hl].
  rewrite String.eqb_sym, Hy. simpl. now rewrite IH.
Qed.

(** X2. Toggling a candidate twice restores the selection when the candidate
    was not selected, and otherwise leaves the same candidates with the
    toggled one moved to the end. *)
Theorem toggleCandidate_twice (c : string) (prev : list string) :
  (includes prev c = false ->
   toggleCandidate c (toggleCandidate c prev) = prev) /\
  (includes prev c = true ->
   toggleCandidate c (toggleCandidate c prev)
   = (filter (fun y => negb (y =? c)%string) prev ++ [c])%list).
Proof.
  split; intros Hc.
  - unfold toggleCandidate at 2. rewrite Hc. unfold toggleCandidate.
    rewrite includes_app. simpl. rewrite String.eqb_refl, orb_true_r. simpl.
    rewrite filter_app. simpl. rewrite String.eqb_refl. simpl.
    rewrite app_nil_r. now apply filter_neq_absent.
  - unfold toggleCandidate at 2. rewrite Hc. unfold toggleCandidate.
    rewrite includes_filter_neq, String.eqb_refl. reflexivity.
Qed.

(** Instance: 이재명 toggled off and on again ends up last. *)
Lemma toggleCandidate_twice_witness :
  toggleCandidate "이재명" (toggleCandidate "이재명" TARGET_CANDIDATES)
  = ["김문수"; "이준석"; "권영국"; "송진호"; "이재명"].
Proof.
  apply (proj2 (toggleCandidate_twice "이재명" TARGET_CANDIDATES)).
  reflexivity.
Defined.

Lemma TARGET_CANDIDATES_NoDup : NoDup TARGET_CANDIDATES.
Proof.
  unfold TARGET_CANDIDATES.
  repeat (constructor; [simpl; intuition discriminate|]). constructor.
Qed.

Lemma toggleCandidate_NoDup (c : string) (s : list string) :
  NoDup s -> NoDup (toggleCandidate c s).
Proof.
  intros Hnd. unfold toggleCandidate. destruct (includes s c) eqn:Hc.
  - now apply NoDup_filter.
  - apply NoDup_app; [assumption|repeat constructor; intros []|].
    intros x Hx [<-|[]]. apply includes_In in Hx. congruence.
Qed.

Lemma toggleCandidate_incl (c : string) (s t : list string) :
  In c t -> incl s t -> incl (toggleCandidate c s) t.
Proof.
  intros Hc Hs x. unfold toggleCandidate. destruct (includes s c).
  - rewrite filter_In. intros [Hx _]. now apply Hs.
  - rewrite in_app_iff. intros [Hx|[<-|[]]]; [now apply Hs|assumption].
Qed.

Lemma reachable_selection_targets (s : list string) :
  reachable_selection s -> NoDup s /\ incl s TARGET_CANDIDATES.
Proof.
  induction 1 as [|c s Hc Hs [IH1 IH2]|s Hs _|s Hs _].
  - split; [apply TARGET_CANDIDATES_NoDup|apply incl_refl].
  - split; [now apply toggleCandidate_NoDup|now apply toggleCandidate_incl].
  - split; [apply TARGET_CANDIDATES_NoDup|apply incl_refl].
  - split; [constructor|intros x []].
Qed.

(** X3. Whatever buttons are pressed, the selection holds no candidate
    twice and only target candidates, hence at most five names. *)
Theorem reachable_selection_invariant (s : list string) :
  reachable_selection s ->
  NoDup s /\ incl s TARGET_CANDIDATES /\ (List.length s <= 5)%nat.
Proof.
  intros Hs. destruct (reachable_selection_targets s Hs) as [Hnd Hincl].
  repeat split; try assumption.
  change 5%nat with (List.length TARGET_CANDIDATES).
  now apply NoDup_incl_length.
Qed.

(** Instance: the selection after 김문수 was toggled off. *)
Lemma reachable_selection_invariant_witness :
  NoDup ["이재명"; "이준석"; "권영국"; "송진호"].
Proof.
  apply (reachable_selection_invariant
           (toggleCandidate "김문수" TARGET_CANDIDATES)).
  apply selection_toggle; [right; now left|apply selection_initial].
Defined.

(** X4. The analysis panel lists exactly the selected candidates, each
    once: its list is a permutation of the selection (in the order of the
    targets, whatever the order of the selection). *)
Theorem panel_candidates_selection (s : list string) :
  reachable_selection s -> Permutation (panel_candidates s) s.
Proof.
  intros Hs. destruct (reachable_selection_targets s Hs) as (Hnd & Hincl).
  apply NoDup_Permutation.
  - apply NoDup_filter, TARGET_CANDIDATES_NoDup.
  - assumption.
  - intros x. unfold panel_candidates. rewrite filter_In, includes_In.
    split; [tauto|]. intros Hx. split; [now apply Hincl|assumption].
Qed.

(** Instance: after 이재명 was toggled off and on, the table lists it last
    and the panel first. *)
Lemma panel_candidates_selection_witness :
  Permutation TARGET_CANDIDATES
              ["김문수"; "이준석"; "권영국"; "송진호"; "이재명"].
Proof.
  apply (panel_candidates_selection
           (toggleCandidate "이재명" (toggleCandidate "이재명" TARGET_CANDIDATES))).
  apply selection_toggle; [now left|].
  apply selection_toggle; [now left|apply selection_initial].
Defined.

Lemma In_TARGET_CANDIDATES (name : string) :
  In name TARGET_CANDIDATES ->
  name = "이재명" \/ name = "김문수" \/ name = "이준석" \/ name = "권영국"
  \/ name = "송진호".
Proof. unfold TARGET_CANDIDATES. simpl. intuition. Qed.

(** X5. Every candidate of a reachable selection has a bar colour (the
    lookup [colors[TARGET_CANDIDATES.indexOf(name)]] is never [undefined]),
    and two different selected candidates have different colours. *)
Theorem panel_color_defined (s : list string) :
  reachable_selection s ->
  (forall name, In name s -> exists color, panel_color name = Some color) /\
  (forall a b, In a s -> In b s -> panel_color a = panel_color b -> a = b).
Proof.
  intros Hs. destruct (reachable_selection_targets s Hs) as [_ Hincl]. split.
  - intros name Hn. apply Hincl, In_TARGET_CANDIDATES in Hn.
    destruct Hn as [-> | [-> | [-> | [-> | ->]]]]; eexists; reflexivity.
  - intros a b Ha Hb.
    apply Hincl, In_TARGET_CANDIDATES in Ha.
    apply Hincl, In_TARGET_CANDIDATES in Hb.
    destruct Ha as [-> | [-> | [-> | [-> | ->]]]];
      destruct Hb as [-> | [-> | [-> | [-> | ->]]]];
      vm_compute; intros Heq; try reflexivity; discriminate.
Qed.

(** Instance: the colour of 권영국. *)
Lemma panel_color_defined_witness :
  exists color, panel_color "권영국" = Some color.
Proof.
  apply (proj1 (panel_color_defined TARGET_CANDIDATES selection_initial)).
  do 3 right. now left.
Defined.

(** A name outside the targets has no colour. *)
Lemma panel_color_unknown : panel_color "홍길동" = None.
Proof. reflexivity. Qed.

(** ** CSV exporter: shape of the text *)

Lemma count_char_app (c : ascii) (s t : string) :
  count_char c (s ++ t) = (count_char c s + count_char c t)%nat.
Proof. induction s as [|ch s IH]; simpl; [reflexivity|]. rewrite IH. lia. Qed.

Lemma count_char_uint (c : ascii) (d : Decimal.uint) :
  c = comma_char \/ c = newline_char ->
  count_char c (NilEmpty.string_of_uint d) = 0%nat.
Proof.
  intros Hc. induction d; simpl; try assumption; try reflexivity;
    destruct Hc as [-> | ->]; simpl; assumption.
Qed.

Lemma count_char_show (c : ascii) (n : Z) :
  c = comma_char \/ c = newline_char -> count_char c (show n) = 0%nat.
Proof.
  intros Hc. unfold show, NilEmpty.string_of_int.
  destruct (Z.to_int n) as [d|d]; simpl.
  - now apply count_char_uint.
  - rewrite (count_char_uint c d Hc). destruct Hc as [-> | ->]; reflexivity.
Qed.

Lemma count_char_quoted (c : ascii) (s : string) :
  c = comma_char \/ c = newline_char ->
  count_char c (quoted s) = count_char c s.
Proof.
  intros Hc. unfold quoted. rewrite !count_char_app.
  destruct Hc as [-> | ->]; simpl; lia.
Qed.

(** Commas and line breaks of a line made of cells. *)
Lemma count_comma_join (cell : string) (cells : list string) :
  Forall (fun x => count_char comma_char x = 0%nat) (cell :: cells) ->
  count_char comma_char (join_cells (cell :: cells)) = List.length cells.
Proof.
  intros Hall. rewrite join_cells_cons, count_char_app.
  inversion Hall as [|? ? Hcell Hcells]; subst. rewrite Hcell. simpl.
  clear Hall Hcell. induction Hcells as [|x l Hx _ IH]; simpl; [reflexivity|].
  rewrite count_char_app, Hx, IH. reflexivity.
Qed.

Lemma count_newline_join (cell : string) (cells : list string) :
  Forall (fun x => count_char newline_char x = 0%nat) (cell :: cells) ->
  count_char newline_char (join_cells (cell :: cells)) = 0%nat.
Proof.
  intros Hall. rewrite join_cells_cons, count_char_app.
  inversion Hall as [|? ? Hcell Hcells]; subst. rewrite Hcell. simpl.
  clear Hall Hcell. induction Hcells as [|x l Hx _ IH]; simpl; [reflexivity|].
  rewrite count_char_app, Hx, IH. reflexivity.
Qed.

Lemma length_flat_map_triple {A B} (f1 f2 f3 : A -> B) (l : list A) :
  List.length (flat_map (fun a => [f1 a; f2 a; f3 a]) l)
  = (3 * List.length l)%nat.
Proof. induction l as [|a l IH]; simpl; [reflexivity|]. rewrite IH. lia. Qed.

Lemma Forall_flat_map_triple {A B} (P : B -> Prop) (f1 f2 f3 : A -> B)
  (l : list A) :
  (forall a, In a l -> P (f1 a) /\ P (f2 a) /\ P (f3 a)) ->
  Forall P (flat_map (fun a => [f1 a; f2 a; f3 a]) l).
Proof.
  intros Hl. induction l as [|a l IH]; simpl; [constructor|].
  destruct (Hl a) as (H1 & H2 & H3); [now left|].
  repeat constructor; try assumption. apply IH. intros; apply Hl; now right.
Qed.

Lemma header_line_shape (selected : list string) :
  (forall c, In c selected -> plain_field c) ->
  count_char comma_char (headers selected) = (4 + 3 * List.length selected)%nat
  /\ count_char newline_char (headers selected) = 0%nat.
Proof.
  intros Hsel. rewrite headers_text. unfold header_cells. cbn [List.app].
  split.
  - rewrite count_comma_join.
    + cbn [List.length]. rewrite length_flat_map_triple. lia.
    + repeat (constructor; [reflexivity|]).
      apply Forall_flat_map_triple. intros c Hc.
      destruct (Hsel c Hc) as [Hcomma _].
      rewrite !count_char_app, Hcomma. repeat split; reflexivity.
  - apply count_newline_join.
    repeat (constructor; [reflexivity|]).
    apply Forall_flat_map_triple. intros c Hc.
    destruct (Hsel c Hc) as [_ Hnl].
    rewrite !count_char_app, Hnl. repeat split; reflexivity.
Qed.

Lemma number_cells_shape (c : ascii) (ns : list Z) :
  c = comma_char \/ c = newline_char ->
  Forall (fun x => count_char c x = 0%nat) (map show ns).
Proof.
  intros Hc. induction ns as [|n ns IH]; simpl; constructor;
    [now apply count_char_show|assumption].
Qed.

Lemma row_line_shape (selected : list string) (r : ElectionPageData) :
  plain_field (district r) -> plain_field (votingType r) ->
  count_char comma_char (row selected r) = (4 + 3 * List.length selected)%nat
  /\ count_char newline_char (row selected r) = 0%nat.
Proof.
  intros [Hd1 Hd2] [Ht1 Ht2]. rewrite row_text. unfold row_cells. split.
  - rewrite count_comma_join.
    + cbn [List.length]. rewrite length_map. unfold row_numbers.
      rewrite length_app, length_flat_map_triple. simpl. lia.
    + constructor; [rewrite count_char_quoted; auto|].
      constructor; [rewrite count_char_quoted; auto|].
      apply number_cells_shape. now left.
  - apply count_newline_join.
    constructor; [rewrite count_char_quoted; auto|].
    constructor; [rewrite count_char_quoted; auto|].
    apply number_cells_shape. now right.
Qed.

Lemma totalRow_line_shape (selected : list string)
  (results : list ElectionPageData) :
  count_char comma_char (totalRow selected results)
  = (4 + 3 * List.length selected)%nat
  /\ count_char newline_char (totalRow selected results) = 0%nat.
Proof.
  rewrite totalRow_text. unfold totalRow_cells. split.
  - rewrite count_comma_join.
    + cbn [List.length]. rewrite length_map. unfold total_numbers.
      rewrite length_app, length_flat_map_triple. simpl. lia.
    + constructor; [reflexivity|]. constructor; [reflexivity|].
      apply number_cells_shape. now left.
  - apply count_newline_join.
    constructor; [reflexivity|]. constructor; [reflexivity|].
    apply number_cells_shape. now right.
Qed.

Lemma count_newline_lines (lines : list string) :
  (forall l, In l lines -> count_char newline_char l = 0%nat) ->
  count_char newline_char (lines_text lines) = List.length lines.
Proof.
  intros Hl. unfold lines_text.
  induction lines as [|l lines IH]; simpl; [reflexivity|].
  rewrite !count_char_app, (Hl l) by now left.
  rewrite IH by (intros; apply Hl; now right). reflexivity.
Qed.

(** X6. When no district, voting type or selected candidate name holds a
    comma or a line break, the exported text is a rectangular table: it has
    one line per page plus the header and the totals row, every line ends
    with the only line break it has, and every line has the same number of
    commas, four plus three per selected candidate. *)
Theorem csv_text_shape (results : list ElectionPageData)
  (selected : list string) :
  results <> [] -> selected <> [] ->
  (forall r, In r results ->
             plain_field (district r) /\ plain_field (votingType r)) ->
  (forall c, In c selected -> plain_field c) ->
  exists name text,
    downloadCSV results selected = Some (name, text) /\
    text = BOM ++ lines_text (csv_lines selected results) /\
    List.length (csv_lines selected results) = (List.length results + 2)%nat /\
    count_char newline_char text = (List.length results + 2)%nat /\
    forall line, In line (csv_lines selected results) ->
      count_char comma_char line = (4 + 3 * List.length selected)%nat /\
      count_char newline_char line = 0%nat.
Proof.
  intros Hr Hs Hres Hsel.
  assert (forall line, In line (csv_lines selected results) ->
            count_char comma_char line = (4 + 3 * List.length selected)%nat /\
            count_char newline_char line = 0%nat) as Hlines.
  { intros line. unfold csv_lines. intros [<-|Hin].
    - now apply header_line_shape.
    - apply in_app_or in Hin. destruct Hin as [Hin|[<-|[]]].
      + apply in_map_iff in Hin. destruct Hin as [r [<- Hin]].
        destruct (Hres r Hin). now apply row_line_shape.
      + apply totalRow_line_shape. }
  assert (List.length (csv_lines selected results)
          = (List.length results + 2)%nat) as Hlen.
  { unfold csv_lines. cbn [List.length].
    rewrite length_app, length_map. simpl. lia. }
  eexists. eexists. split; [now apply downloadCSV_text|].
  split; [reflexivity|]. split; [exact Hlen|]. split; [|exact Hlines].
  rewrite count_char_app, count_newline_lines.
  - rewrite Hlen. reflexivity.
  - intros l Hl. now apply Hlines.
Qed.

(** Instance: the two 애월읍 pages and two candidates. *)
Lemma csv_text_shape_witness :
  exists name text,
    downloadCSV [aewol_1; aewol_2] ["이재명"; "김문수"] = Some (name, text) /\
    count_char newline_char text = 4%nat.
Proof.
  destruct (csv_text_shape [aewol_1; aewol_2] ["이재명"; "김문수"])
    as (name & text & Hd & _ & _ & Hn & _).
  - discriminate.
  - discriminate.
  - intros r [<-|[<-|[]]]; repeat split; reflexivity.
  - intros c [<-|[<-|[]]]; split; reflexivity.
  - exists name, text. split; [exact Hd|exact Hn].
Defined.

Lemma length_append (s t : string) :
  String.length (s ++ t) = (String.length s + String.length t)%nat.
Proof. induction s as [|ch s IH]; simpl; [reflexivity|]. now rewrite IH. Qed.

(** X7. Fields are written between quotes without any escaping: moving a
    quote-comma-quote sequence from the district into the voting type gives
    the same row text, so different pages can export to the same line. *)
Theorem row_not_escaped (selected : list string) (d t x : string)
  (r : ElectionPageData) :
  row selected (relabel (d ++ field_break ++ t) x r)
  = row selected (relabel d (t ++ field_break ++ x) r) /\
  district (relabel (d ++ field_break ++ t) x r)
  <> district (relabel d (t ++ field_break ++ x) r).
Proof.
  split.
  - unfold row, relabel, field_break. cbn [district votingType validVotes
      invalidVotes totalVotes]. f_equal.
    rewrite !append_assoc. reflexivity.
  - unfold relabel. cbn [district]. intros Heq.
    apply (f_equal String.length) in Heq.
    rewrite !length_append in Heq. simpl in Heq. lia.
Qed.

(** ** District aggregator: conservation and composition *)
































(** ** Further properties of the accumulator *)

Lemma collect_pages_sound (pages : list PageOutcome) (i : nat)
  (r : ElectionPageData) :
  In r (fst (collect_pages i pages)) ->
  exists j data,
    nth_error pages j = Some (Extracted data) /\ r = page_record (i + j) data.
Proof.
  revert i. induction pages as [|p rest IH]; intros i Hin; [destruct Hin|].
  destruct p as [err|err|data]; cbn [collect_pages] in Hin.
  - destruct Hin.
  - destruct (IH (S i) Hin) as (j & data & Hj & ->).
    exists (S j), data. split; [exact Hj|]. f_equal. lia.
  - destruct (collect_pages (S i) rest) as [rs failure] eqn:Hc.
    cbn [fst] in Hin. destruct Hin as [<-|Hin].
    + exists 0%nat, data. split; [reflexivity|]. f_equal. lia.
    + specialize (IH (S i)). rewrite Hc in IH.
      destruct (IH Hin) as (j & data' & Hj & ->).
      exists (S j), data'. split; [exact Hj|]. f_equal. lia.
Qed.

Lemma collect_files_sound (files : list FileInput) (r : ElectionPageData) :
  In r (fst (collect_files files)) ->
  exists pages j data,
    In (PdfPages pages) files /\
    nth_error pages j = Some (Extracted data) /\ r = page_record (S j) data.
Proof.
  induction files as [|file rest IH]; intros Hin; [destruct Hin|].
  rewrite (collect_files_cons file rest) in Hin.
  assert (In r (fst (collect_files [file])) \/ In r (fst (collect_files rest)))
    as [Hhere|Hlater].
  { destruct (snd (collect_files [file])); cbn [fst] in Hin; [now left|].
    now apply in_app_or in Hin. }
  - rewrite collect_one_file in Hhere.
    destruct file as [|err|pages]; try destruct Hhere.
    destruct (collect_pages_sound pages 1 r Hhere) as (j & data & Hj & ->).
    exists pages, j, data. split; [now left|]. split; [exact Hj|reflexivity].
  - destruct (IH Hlater) as (pages & j & data & Hp & Hj & ->).
    exists pages, j, data. split; [now right|]. split; [exact Hj|reflexivity].
Qed.

Lemma collect_files_stop (pre post : list FileInput) (f : FileInput)
  (err : Thrown) :
  snd (collect_files (pre ++ [f])) = Some err ->
  collect_files (pre ++ f :: post) = collect_files (pre ++ [f]).
Proof.
  induction pre as [|a pre IH]; intros Hfail.
  - cbn [List.app] in *. rewrite (collect_files_cons f post).
    destruct (collect_files [f]) as [rs failure]. cbn [fst snd] in *.
    now subst failure.
  - cbn [List.app] in *.
    rewrite (collect_files_cons a (pre ++ f :: post)).
    rewrite (collect_files_cons a (pre ++ [f])) in Hfail |- *.
    destruct (snd (collect_files [a])) as [e|]; [reflexivity|].
    cbn [snd] in Hfail. now rewrite (IH Hfail).
Qed.

Section AccumulatorMore.
Context {num : Type} `{JSNumber num}.
Implicit Types (st : AppState num).

(** X14. After a run every record stems from a page of a selected PDF whose
    extraction succeeded: it is the extracted data with the page's number
    (between 1 and the page count of the file) and the voting type mapped
    from that number. No record of an earlier run is left. *)
Theorem startExtraction_records_sound (files : list FileInput) st
  (r : ElectionPageData) :
  files <> [] ->
  In r (results (startExtraction files st)) ->
  exists pages j data,
    In (PdfPages pages) files /\
    nth_error pages j = Some (Extracted data) /\
    r = page_record (S j) data /\
    pageNumber r = Some (S j) /\
    (1 <= S j <= List.length pages)%nat /\
    votingType r = mappedType (S j) (votingType data) /\
    district r = district data /\
    candidateVotes r = candidateVotes data.
Proof.
  intros Hne Hin.
  destruct (startExtraction_collect files st Hne) as (Hres & _).
  rewrite Hres in Hin.
  destruct (collect_files_sound files r Hin) as (pages & j & data & Hp & Hj & ->).
  assert (j < List.length pages)%nat as Hlt
    by (apply nth_error_Some; congruence).
  exists pages, j, data. repeat split; try assumption; lia.
Qed.

Lemma file_loop_stop (pre post : list FileInput) (f : FileInput)
  (err : Thrown) (i t : nat) st :
  snd (collect_files (pre ++ [f])) = Some err ->
  file_loop i t (pre ++ f :: post) st = file_loop i t (pre ++ [f]) st.
Proof.
  revert i st. induction pre as [|a pre IH]; intros i st Hfail.
  - cbn [List.app file_loop] in *.
    destruct (processFile_collect f i t st) as (st' & Heq & _).
    rewrite Heq, Hfail. reflexivity.
  - cbn [List.app file_loop] in *.
    destruct (processFile_collect a i t st) as (st' & Heq & _).
    rewrite Heq. rewrite (collect_files_cons a (pre ++ [f])) in Hfail.
    destruct (snd (collect_files [a])) as [e|]; [reflexivity|].
    cbn [completion_of]. apply IH. exact Hfail.
Qed.

(** X15. The file loop ends at the first file that throws: the files after
    it change nothing, neither the state nor the events of the loop, and the
    run ends with the same results and the same error message as the run
    without them. *)
Theorem file_loop_stops_at_failure (pre post : list FileInput) (f : FileInput)
  (err : Thrown) :
  snd (collect_files (pre ++ [f])) = Some err ->
  (forall (i t : nat) st,
      file_loop i t (pre ++ f :: post) st = file_loop i t (pre ++ [f]) st) /\
  (forall st,
      results (startExtraction (pre ++ f :: post) st)
      = results (startExtraction (pre ++ [f]) st) /\
      error (startExtraction (pre ++ f :: post) st) = Some (error_text err) /\
      error (startExtraction (pre ++ [f]) st) = Some (error_text err)).
Proof.
  intros Hfail. split.
  - intros i t st. now apply file_loop_stop with err.
  - intros st.
    destruct (startExtraction_collect (pre ++ f :: post) st)
      as (Hr1 & _ & _ & He1 & _); [now destruct pre|].
    destruct (startExtraction_collect (pre ++ [f]) st)
      as (Hr2 & _ & _ & He2 & _); [now destruct pre|].
    rewrite Hr1, Hr2, He1, He2, (collect_files_stop pre post f err Hfail), Hfail.
    auto.
Qed.

Lemma extract_calls_app (evs1 evs2 : list (Event num)) :
  extract_calls (evs1 ++ evs2) = (extract_calls evs1 ++ extract_calls evs2)%list.
Proof. apply flat_map_app. Qed.

Lemma console_errors_app (evs1 evs2 : list (Event num)) :
  console_errors (evs1 ++ evs2)
  = (console_errors evs1 ++ console_errors evs2)%list.
Proof. apply flat_map_app. Qed.

Lemma page_events_account (s t n : nat) (pages : list PageOutcome) (i : nat) :
  List.length (extract_calls (page_events s t n i pages))
  = (List.length (fst (collect_pages i pages))
     + List.length (console_errors (page_events s t n i pages)))%nat.
Proof.
  revert i. induction pages as [|p rest IH]; intros i; [reflexivity|].
  specialize (IH (S i)).
  destruct p as [err|err|data]; cbn [page_events collect_pages].
  - reflexivity.
  - simpl. rewrite IH. lia.
  - destruct (collect_pages (S i) rest) as [rs failure]. simpl in *.
    rewrite IH. lia.
Qed.

Lemma file_events_account (s t : nat) (file : FileInput) :
  List.length (extract_calls (file_events s t file))
  = (List.length (fst (collect_files [file]))
     + List.length (console_errors (file_events s t file)))%nat.
Proof.
  rewrite collect_one_file. destruct file as [|err|pages]; try reflexivity.
  apply page_events_account.
Qed.

Lemma run_events_account (t : nat) (files : list FileInput) (i : nat) :
  List.length (extract_calls (run_events i t files))
  = (List.length (fst (collect_files files))
     + List.length (console_errors (run_events i t files)))%nat.
Proof.
  revert i. induction files as [|file rest IH]; intros i; [reflexivity|].
  cbn [run_events]. rewrite (collect_files_cons file rest).
  rewrite extract_calls_app, console_errors_app, !length_app.
  rewrite file_events_account.
  destruct (snd (collect_files [file])) as [e|]; cbn [fst].
  - simpl. lia.
  - rewrite length_app, IH. lia.
Qed.

(** X16. Every extraction call of a run is accounted for: the number of
    calls is the number of records in the results plus the number of
    failures written to the console, also when the run ends on an error. *)
Theorem startExtraction_accounting (files : list FileInput) st :
  files <> [] ->
  exists evs,
    trace (startExtraction files st) = (trace st ++ evs)%list /\
    List.length (extract_calls evs)
    = (List.length (results (startExtraction files st))
       + List.length (console_errors evs))%nat.
Proof.
  intros Hne.
  destruct (startExtraction_collect files st Hne) as (Hres & _ & _ & _ & Htr).
  eexists. split; [exact Htr|]. rewrite Hres.
  change (SetProgress (of_nat 0)
            :: run_events 0 (List.length files) files
            ++ [SetProgress (of_nat 100)])%list
    with ([SetProgress (of_nat 0)]
            ++ run_events 0 (List.length files) files
            ++ [SetProgress (of_nat 100)])%list.
  rewrite !extract_calls_app, !console_errors_app, !length_app.
  rewrite run_events_account. simpl. lia.
Qed.

(** X17. A run over a non-empty file list starts afresh: its results, error
    message, progress and processing flag, and the events it adds, are the
    same from whatever state it starts; results and error message of an
    earlier run are gone. *)
Theorem startExtraction_restarts (files : list FileInput) st1 st2 :
  files <> [] ->
  results (startExtraction files st1) = results (startExtraction files st2) /\
  error (startExtraction files st1) = error (startExtraction files st2) /\
  progress (startExtraction files st1) = progress (startExtraction files st2) /\
  isProcessing (startExtraction files st1)
  = isProcessing (startExtraction files st2) /\
  exists evs,
    trace (startExtraction files st1) = (trace st1 ++ evs)%list /\
    trace (startExtraction files st2) = (trace st2 ++ evs)%list.
Proof.
  intros Hne.
  destruct (startExtraction_collect files st1 Hne) as (Hr1 & Hp1 & Hg1 & He1 & Ht1).
  destruct (startExtraction_collect files st2 Hne) as (Hr2 & Hp2 & Hg2 & He2 & Ht2).
  rewrite Hr1, Hr2, Hp1, Hp2, Hg1, Hg2, He1, He2.
  repeat split. eexists. split; [exact Ht1|exact Ht2].
Qed.

End AccumulatorMore.

Section ProgressBounds.
Context {num : Type} {safe : nat -> Prop} `{JSNumberLaws num safe}.
Implicit Types (st : AppState num).

(** X18. Every progress value set during a run lies between 0 and 100 (the
    number of files and the page counts being safe whole numbers), also when
    extractions fail or the run ends on an error. *)
Theorem progress_within_bounds (files : list FileInput) st :
  safe (List.length files) -> Forall (safe_file safe) files ->
  exists evs,
    trace (startExtraction files st) = (trace st ++ evs)%list /\
    Forall (fun v => le (of_nat 0) v /\ le v (of_nat 100)) (progress_values evs).
Proof.
  intros Hst Hfiles. destruct files as [|f fs].
  - exists []. split; [now rewrite app_nil_r|constructor].
  - set (files := f :: fs) in *.
    assert (0 < List.length files)%nat as Ht by (simpl; lia).
    destruct (startExtraction_collect files st) as (_ & _ & _ & _ & Htr);
      [discriminate|].
    eexists. split; [exact Htr|].
    change (SetProgress (of_nat 0)
              :: run_events 0 (List.length files) files
              ++ [SetProgress (of_nat 100)])%list
      with ([SetProgress (of_nat 0)]
              ++ run_events 0 (List.length files) files
              ++ [SetProgress (of_nat 100)])%list.
    rewrite !progress_values_app.
    assert (le (of_nat 0) (of_nat 100)) as H0100 by (apply of_nat_le; lia).
    assert (le (of_nat 0) (of_nat 0)) as H00 by (apply of_nat_le; lia).
    assert (le (of_nat 100) (of_nat 100)) as H11 by (apply of_nat_le; lia).
    apply Forall_app. split; [|apply Forall_app; split].
    + simpl. constructor; [split; assumption|constructor].
    + destruct (run_events_progress (List.length files) files 0 Ht Hst Hfiles)
        as [_ Hb]; [simpl; lia|].
      rewrite (percent_start (List.length files) Ht Hst) in Hb.
      rewrite (percent_end (List.length files) Ht Hst) in Hb. exact Hb.
    + simpl. constructor; [split; assumption|constructor].
Qed.

End ProgressBounds.

(** Instance of X14: the record of the first page of the third sample file
    stems from that page. *)
Lemma startExtraction_records_sound_witness :
  exists pages j data,
    In (PdfPages pages) sample_files /\
    nth_error pages j = Some (Extracted data) /\
    page_record 1 aewol_2 = page_record (S j) data /\
    pageNumber (page_record 1 aewol_2) = Some (S j) /\
    (1 <= S j <= List.length pages)%nat /\
    votingType (page_record 1 aewol_2) = mappedType (S j) (votingType data) /\
    district (page_record 1 aewol_2) = district data /\
    candidateVotes (page_record 1 aewol_2) = candidateVotes data.
Proof.
  apply (@startExtraction_records_sound Qcanon.Qc ExactNumber.exact
           sample_files sample_state (page_record 1 aewol_2)).
  - discriminate.
  - vm_compute. right. right. left. reflexivity.
Defined.

(** Instance of X15: a file after the one that fails to render. *)
Lemma file_loop_stops_at_failure_witness :
  results (startExtraction (sample_files ++ [PdfPages [Extracted aewol_1]])
                           sample_state)
  = results (startExtraction sample_files sample_state).
Proof.
  apply (proj2 (@file_loop_stops_at_failure Qcanon.Qc ExactNumber.exact
                  (firstn 2 sample_files) [PdfPages [Extracted aewol_1]]
                  (PdfPages [Extracted aewol_2;
                             RenderThrows (ErrorObject "Canvas context error");
                             Extracted hallim])
                  (ErrorObject "Canvas context error") eq_refl)
               sample_state).
Defined.

(** Instance of X16 on the sample run. *)
Lemma startExtraction_accounting_witness :
  exists evs,
    trace (startExtraction sample_files sample_state)
    = (trace sample_state ++ evs)%list /\
    List.length (extract_calls evs)
    = (List.length (results (startExtraction sample_files sample_state))
       + List.length (console_errors evs))%nat.
Proof.
  apply (@startExtraction_accounting Qcanon.Qc ExactNumber.exact
           sample_files sample_state).
  discriminate.
Defined.

(** Instance of X17: the sample run from the sample state and from an empty
    state. *)
Lemma startExtraction_restarts_witness :
  results (startExtraction sample_files sample_state)
  = results (startExtraction sample_files
               (mkAppState [] true (ExactNumber.whole 7) None [])).
Proof.
  apply (@startExtraction_restarts Qcanon.Qc ExactNumber.exact sample_files
           sample_state (mkAppState [] true (ExactNumber.whole 7) None [])).
  discriminate.
Defined.

(** Instance of X18 in exact arithmetic. *)
Lemma progress_within_bounds_witness :
  exists evs,
    trace (startExtraction sample_files sample_state)
    = (trace sample_state ++ evs)%list /\
    Forall (fun v => Qcanon.Qcle (ExactNumber.whole 0) v
                     /\ Qcanon.Qcle v (ExactNumber.whole 100))
           (progress_values evs).
Proof.
  apply (@progress_within_bounds Qcanon.Qc (fun _ => True)
           ExactNumber.exact ExactNumberFacts.exact_laws).
  - exact I.
  - repeat constructor.
Defined.

(** ** Image payload *)

Lemma split_comma_cons (s : string) :
  exists piece pieces, split_comma s = piece :: pieces.
Proof.
  induction s as [|ch s (piece & pieces & IH)]; simpl; [eauto|].
  destruct (Ascii.eqb ch comma_char); [eauto|]. rewrite IH. eauto.
Qed.

Lemma split_comma_plain (s : string) :
  count_char comma_char s = 0%nat -> split_comma s = [s].
Proof.
  induction s as [|ch s IH]; simpl; [reflexivity|].
  destruct (Ascii.eqb ch comma_char); [discriminate|].
  intros Hs. now rewrite IH.
Qed.

Lemma split_comma_app (header rest : string) :
  count_char comma_char header = 0%nat ->
  split_comma (header ++ String comma_char rest) = header :: split_comma rest.
Proof.
  induction header as [|ch header IH]; simpl.
  - reflexivity.
  - destruct (Ascii.eqb ch comma_char); [discriminate|].
    intros Hs. now rewrite IH.
Qed.

(** X19. For a data URL, whose header has no comma, the payload is the text
    after the first comma when that text is not empty and has no comma (as
    is the case of base64 text); of a text with further commas only the part
    up to the second comma is sent. *)
Theorem image_payload_data_url (header piece : string) :
  count_char comma_char header = 0%nat ->
  count_char comma_char piece = 0%nat ->
  piece <> EmptyString ->
  image_payload (header ++ "," ++ piece) = piece /\
  forall more, image_payload (header ++ "," ++ piece ++ "," ++ more) = piece.
Proof.
  intros Hh Hp Hne.
  assert (forall x, (if (piece =? EmptyString)%string then x else piece) = piece)
    as Hif.
  { intros x. destruct (String.eqb_spec piece EmptyString); congruence. }
  split.
  - unfold image_payload.
    change (header ++ "," ++ piece) with (header ++ String comma_char piece).
    rewrite (split_comma_app header piece Hh), (split_comma_plain piece Hp).
    cbn [nth_error]. apply Hif.
  - intros more. unfold image_payload.
    change (header ++ "," ++ piece ++ "," ++ more)
      with (header ++ String comma_char (piece ++ String comma_char more)).
    rewrite (split_comma_app header _ Hh), (split_comma_app piece more Hp).
    cbn [nth_error]. apply Hif.
Qed.

(** Instance: the data URL of a PNG image. *)
Lemma image_payload_data_url_witness :
  image_payload "data:image/png;base64,iVBORw0KGgo=" = "iVBORw0KGgo=".
Proof.
  apply (proj1 (image_payload_data_url "data:image/png;base64" "iVBORw0KGgo="
                  eq_refl eq_refl ltac:(discriminate))).
Defined.

(** X20. The payload falls back to the whole string: when the string has no
    comma, and when nothing stands between its first comma and the second
    comma or the end. Hence the payload is empty only for the empty
    string. *)
Theorem image_payload_fallback (s : string) :
  (count_char comma_char s = 0%nat -> image_payload s = s) /\
  (forall header more,
      s = header ++ "," \/ s = header ++ ",," ++ more ->
      count_char comma_char header = 0%nat -> image_payload s = s) /\
  (image_payload s = EmptyString <-> s = EmptyString).
Proof.
  split; [|split].
  - intros Hs. unfold image_payload. now rewrite (split_comma_plain s Hs).
  - intros header more [->| ->] Hh; unfold image_payload.
    + change (header ++ ",") with (header ++ String comma_char EmptyString).
      now rewrite (split_comma_app header _ Hh).
    + change (header ++ ",," ++ more)
        with (header ++ String comma_char (String comma_char more)).
      now rewrite (split_comma_app header _ Hh).
  - split; [|now intros ->].
    unfold image_payload.
    destruct (nth_error (split_comma s) 1) as [piece|]; [|auto].
    destruct (String.eqb_spec piece EmptyString); [auto|congruence].
Qed.

(** Instance: a string without comma is sent whole. *)
Lemma image_payload_fallback_witness :
  image_payload "iVBORw0KGgo=" = "iVBORw0KGgo=".
Proof.
  apply (proj1 (image_payload_fallback "iVBORw0KGgo=")). reflexivity.
Defined.

(** ** Name of the exported file *)

Lemma append_inj_r (x y s : string) : x ++ s = y ++ s -> x = y.
Proof.
  revert y. induction x as [|ch x IH]; intros [|ch' y] Heq; simpl in Heq.
  - reflexivity.
  - apply (f_equal String.length) in Heq. simpl in Heq.
    rewrite length_append in Heq. lia.
  - apply (f_equal String.length) in Heq. simpl in Heq.
    rewrite length_append in Heq. lia.
  - injection Heq as -> Heq. f_equal. now apply IH.
Qed.

(** X21. The name of the exported file tells the number of selected
    candidates and nothing else: two exports have the same file name exactly
    when they select the same number of candidates. *)
Theorem downloadCSV_name (results results' : list ElectionPageData)
  (selected selected' : list string) :
  results <> [] -> results' <> [] -> selected <> [] -> selected' <> [] ->
  (option_map fst (downloadCSV results selected)
   = option_map fst (downloadCSV results' selected')
   <-> List.length selected = List.length selected').
Proof.
  intros Hr Hr' Hs Hs'. unfold downloadCSV.
  destruct results; [congruence|]. destruct results'; [congruence|].
  destruct selected as [|c sel]; [congruence|].
  destruct selected' as [|c' sel']; [congruence|].
  cbn [List.length Nat.eqb orb option_map fst]. split.
  - intros Heq. injection Heq as Heq.
    apply append_inj_r, show_injective in Heq.
    change (Z.of_nat (S (List.length sel)) = Z.of_nat (S (List.length sel')))
      in Heq. lia.
  - intros Heq. now rewrite Heq.
Qed.

(** Instance: two selections of two candidates. *)
Lemma downloadCSV_name_witness :
  option_map fst (downloadCSV [hallim] ["이재명"; "김문수"])
  = option_map fst (downloadCSV [aewol_1; aewol_2] ["이준석"; "권영국"]).
Proof.
  apply (downloadCSV_name [hallim] [aewol_1; aewol_2]
           ["이재명"; "김문수"] ["이준석"; "권영국"]);
    [discriminate..|reflexivity].
Defined.
